(** * Plotscript: the expression evaluator of the language kernel

    A shallow embedding of [atom.cpp] and [expression.cpp].  A C++ [double]
    is a binary64 float ([PrimFloat.float]); a [std::complex<double>] is its
    two components; [std::string] is [string]; the property map
    ([std::map<std::string, Expression>]) and the environment are finite maps
    over strings.  Evaluation threads the environment explicitly, and carries
    it in the exceptional outcome too, because a C++ exception leaves the
    mutated [Environment &] as it was when the exception was thrown. *)

From Stdlib Require Import PrimFloat Uint63 ZArith Ascii String List Bool Lia.
From stdpp Require Import gmap strings list.

#[local] Set Warnings "-register-all".

Open Scope string_scope.

(** ** atom.cpp *)

(** The tagged union of [Atom]: [m_type] together with the member of the
    union that is live for it.  A string literal and a symbol both have
    [SymbolKind]; they differ by the first character of [stringValue]. *)
Inductive Atom : Type :=
| NoneKind
| NumberKind (numberValue : float)
| SymbolKind (stringValue : string)
| ComplexKind (re im : float).

(** The double quote character, code 34. *)
Definition dquote : ascii := Ascii false true false false false true false false.

(** [stringValue[0]]: the terminating NUL for the empty string. *)
Definition first_char (s : string) : ascii :=
  match s with
  | EmptyString => zero
  | String c _ => c
  end.

Definition isNone (a : Atom) : bool :=
  match a with NoneKind => true | _ => false end.

Definition isNumber (a : Atom) : bool :=
  match a with NumberKind _ => true | _ => false end.

Definition isSymbol (a : Atom) : bool :=
  match a with
  | SymbolKind s => negb (Ascii.eqb (first_char s) dquote)
  | _ => false
  end.

Definition isComplex (a : Atom) : bool :=
  match a with ComplexKind _ _ => true | _ => false end.

Definition isString (a : Atom) : bool :=
  match a with
  | SymbolKind s => Ascii.eqb (first_char s) dquote
  | _ => false
  end.

Definition asNumber (a : Atom) : float :=
  match a with
  | ComplexKind r _ => r
  | NumberKind v => v
  | _ => 0%float
  end.

(** The erase-remove idiom of [asSymbol]: every double quote of the text
    goes, not only the surrounding ones. *)
Fixpoint remove_quotes (s : string) : string :=
  match s with
  | EmptyString => EmptyString
  | String c r =>
      if Ascii.eqb c dquote then remove_quotes r else String c (remove_quotes r)
  end.

Definition asSymbol (a : Atom) : string :=
  match a with
  | SymbolKind s => remove_quotes s
  | _ => EmptyString
  end.

(** [std::numeric_limits<double>::epsilon()] *)
Definition epsilon : float := 0x1p-52%float.

Definition two_epsilon : float := (epsilon * 2)%float.

(** [a > b] on doubles *)
Definition fgt (a b : float) : bool := PrimFloat.ltb b a.

(** [Atom::operator==] *)
Definition Atom_eq (left right : Atom) : bool :=
  match left, right with
  | NoneKind, NoneKind => true
  | NumberKind dleft, NumberKind dright =>
      let diff := abs (dleft - dright)%float in
      if is_nan diff || fgt diff two_epsilon then false else true
  | SymbolKind l, SymbolKind r => String.eqb l r
  | ComplexKind lr li, ComplexKind rr ri =>
      let realPart := abs (lr - rr)%float in
      let imagPart := abs (li - ri)%float in
      if fgt realPart two_epsilon || fgt imagPart two_epsilon then false else true
  | _, _ => false
  end.

(** ** expression.cpp: the data *)

Module ExpType.
Inductive t : Type := None | Singleton | List | Lambda | Plot.

Definition eqb (a b : t) : bool :=
  match a, b with
  | None, None | Singleton, Singleton | List, List
  | Lambda, Lambda | Plot, Plot => true
  | _, _ => false
  end.
End ExpType.

#[local] Unset Elimination Schemes.
Inductive Expression : Type :=
  mkExpression {
    m_head : Atom;
    m_tail : list Expression;
    m_properties : gmap string Expression;
    m_type : ExpType.t
  }.
#[local] Set Elimination Schemes.

(** The constructors of [Expression], one definition per overload. *)

(** [Expression()] *)
Definition Expression_default : Expression :=
  mkExpression NoneKind [] ∅ ExpType.None.

(** [Expression(const Atom &)] *)
Definition Expression_atom (a : Atom) : Expression :=
  mkExpression a [] ∅ ExpType.Singleton.

(** [Expression(const std::vector<Expression> &)] *)
Definition Expression_list (items : list Expression) : Expression :=
  mkExpression NoneKind items ∅ ExpType.List.

(** [Expression(const std::vector<Expression> & args, Expression & func)]:
    [m_tail.push_back(args)] converts the vector through the list
    constructor. *)
Definition Expression_lambda (args : list Expression) (func : Expression) : Expression :=
  mkExpression NoneKind [Expression_list args; func] ∅ ExpType.Lambda.

(** [Expression(std::string type, const std::vector<Expression> & data)] *)
Definition Expression_plot (type : string) (data : list Expression) : Expression :=
  mkExpression NoneKind data {[ "type" := Expression_atom (SymbolKind type) ]} ExpType.Plot.

Definition isList (e : Expression) : bool := ExpType.eqb (m_type e) ExpType.List.
Definition isLambda (e : Expression) : bool := ExpType.eqb (m_type e) ExpType.Lambda.
Definition isEmpty (e : Expression) : bool := ExpType.eqb (m_type e) ExpType.None.
Definition tailLength (e : Expression) : nat := length (m_tail e).

(** [Expression::__getProperty] *)
Definition getProperty (e : Expression) (key : string) : Expression :=
  match m_properties e !! key with
  | Some v => v
  | None => Expression_default
  end.

(** [e.m_properties[key] = value] *)
Definition assignProperty (e : Expression) (key : string) (value : Expression) : Expression :=
  mkExpression (m_head e) (m_tail e) (<[key := value]> (m_properties e)) (m_type e).

(** [e.m_properties.erase(key)] *)
Definition eraseProperty (e : Expression) (key : string) : Expression :=
  mkExpression (m_head e) (m_tail e) (delete key (m_properties e)) (m_type e).

(** [Expression::operator==].  The loop walks both tails in lockstep and
    accumulates the conjunction of the element comparisons; it is entered
    only when the heads and the sizes agree. *)
Fixpoint Expression_eq (a b : Expression) {struct a} : bool :=
  let result := Atom_eq (m_head a) (m_head b) in
  let result := result && (length (m_tail a) =? length (m_tail b))%nat in
  if result then
    (fix loop (ls rs : list Expression) (result : bool) {struct ls} : bool :=
       match ls, rs with
       | lefte :: ls', righte :: rs' =>
           loop ls' rs' (result && Expression_eq lefte righte)
       | _, _ => result
       end) (m_tail a) (m_tail b) result
  else result.

(** [Expression::checkProperty] *)
Definition checkProperty (e : Expression) (key value : string) : bool :=
  let left := String dquote key ++ String dquote EmptyString in
  let right := String dquote value ++ String dquote EmptyString in
  Expression_eq (getProperty e left) (Expression_atom (SymbolKind right)).

(** ** The environment *)

(** A [Procedure] takes the evaluated arguments and returns an expression or
    throws a [SemanticError] with a message. *)
Inductive ProcResult : Type :=
| Returns (e : Expression)
| Raises (what : string).

Definition Procedure : Type := list Expression -> ProcResult.

Inductive EnvEntry : Type :=
| BuiltinProc (proc : Procedure)
| BoundExp (exp : Expression).

Abbreviation Environment := (gmap string EnvEntry).

(** Modelled from the spec: [Environment::is_known] (environment.cpp is not
    among the sources).  True iff the symbol is either a built-in procedure
    or a bound expression; the environment maps symbols only. *)
Definition is_known (env : Environment) (sym : Atom) : bool :=
  isSymbol sym &&
  match env !! asSymbol sym with Some _ => true | None => false end.

(** Modelled from the spec: [Environment::is_proc].  True iff the entry is a
    built-in procedure. *)
Definition is_proc (env : Environment) (sym : Atom) : bool :=
  isSymbol sym &&
  match env !! asSymbol sym with Some (BuiltinProc _) => true | _ => false end.

(** Modelled from the spec: [Environment::get_proc].  The procedure handle;
    there is none when the symbol does not name a procedure. *)
Definition get_proc (env : Environment) (sym : Atom) : option Procedure :=
  if isSymbol sym then
    match env !! asSymbol sym with Some (BuiltinProc p) => Some p | _ => None end
  else None.

(** Modelled from the spec: [Environment::is_exp]. *)
Definition is_exp (env : Environment) (sym : Atom) : bool :=
  isSymbol sym &&
  match env !! asSymbol sym with Some (BoundExp _) => true | _ => false end.

(** Modelled from the spec: [Environment::get_exp].  The bound expression.
    For a symbol that is not bound the result is the unset [Expression()]:
    [apply], [handle_apply] and [handle_map] call
    [env.get_exp(op).isLambda()] on the names of built-in procedures before
    any other check, and the spec's scenarios ((+ 1 2 3) is 6,
    (apply + (list 1 2 3)) is 6) need that call to return a non-lambda
    there. *)
Definition get_exp (env : Environment) (sym : Atom) : Expression :=
  if isSymbol sym then
    match env !! asSymbol sym with Some (BoundExp e) => e | _ => Expression_default end
  else Expression_default.

(** Modelled from the spec: [Environment::add_exp].  Binds or rebinds in the
    current environment; the callers have refused the reserved names. *)
Definition add_exp (env : Environment) (sym : Atom) (exp : Expression) : Environment :=
  <[asSymbol sym := BoundExp exp]> env.

(** Modelled from the spec: [Environment::__shadowing_helper].
    Unconditionally rebinds in the current scope. *)
Definition shadowing_helper (env : Environment) (sym : Atom) (exp : Expression) : Environment :=
  <[asSymbol sym := BoundExp exp]> env.

(** ** Outcomes of evaluation *)

(** The state an evaluation runs in: the environment it may mutate, and the
    number of times [global_status_flag] has been read so far. *)
Record State : Type := mkState {
  st_env : Environment;
  st_polls : nat
}.

(** [Val]: a returned value.  [Throw]: a [SemanticError] in flight; the
    state is the one at the throw.  [Fault]: the C++ program has no result
    (an out-of-range [operator[]], a null dereference, an [assert] that
    fails in a build with assertions).
    [NoFuel]: the recursion bound of the model was reached. *)
Inductive Outcome (A : Type) : Type :=
| Val (a : A) (st : State)
| Throw (what : string) (st : State)
| Fault
| NoFuel.

Arguments Val {A} a st.
Arguments Throw {A} what st.
Arguments Fault {A}.
Arguments NoFuel {A}.

Definition M (A : Type) : Type := State -> Outcome A.

Definition ret {A} (a : A) : M A := fun st => Val a st.

Definition bind {A B} (m : M A) (k : A -> M B) : M B :=
  fun st =>
    match m st with
    | Val a st' => k a st'
    | Throw what st' => Throw what st'
    | Fault => Fault
    | NoFuel => NoFuel
    end.

Definition throw {A} (what : string) : M A := fun st => Throw what st.

Definition fault {A} : M A := fun _ => Fault.

Definition get_env : M Environment := fun st => Val (st_env st) st.

Definition put_env (env : Environment) : M unit :=
  fun st => Val tt (mkState env (st_polls st)).

Notation "'let*' x ':=' m 'in' k" := (bind m (fun x => k))
  (at level 10, x name, m at level 100, k at level 200, only parsing).

(** Runs [m] on a local copy [inner] of the environment: whatever [m] does
    to it is dropped when [m] returns or throws, and the caller's
    environment is as before.  The count of polls is global. *)
Definition in_scope {A} (inner : Environment) (m : M A) : M A :=
  fun st =>
    match m (mkState inner (st_polls st)) with
    | Val a st' => Val a (mkState (st_env st) (st_polls st'))
    | Throw what st' => Throw what (mkState (st_env st) (st_polls st'))
    | Fault => Fault
    | NoFuel => NoFuel
    end.

(** [proc(args)] *)
Definition call_proc (proc : Procedure) (args : list Expression) : M Expression :=
  match proc args with
  | Returns e => ret e
  | Raises what => throw what
  end.

(** [std::max(a, b)] and [std::min(a, b)] on doubles *)
Definition fmax (a b : float) : float := if PrimFloat.ltb a b then b else a.
Definition fmin (a b : float) : float := if PrimFloat.ltb b a then b else a.

(** The conversion of a [size_t] to [double]; the sizes of vectors are far
    below 2^63. *)
Definition double_of_size (n : nat) : float :=
  PrimFloat.of_uint63 (Uint63.of_Z (Z.of_nat n)).

Definition quoted (s : string) : string :=
  String dquote s ++ String dquote EmptyString.

Definition number (v : float) : Expression := Expression_atom (NumberKind v).

(** ** expression.cpp: the evaluator *)

Section Evaluator.

(** [global_status_flag] is written from outside the evaluator (a signal
    handler); [global_status_flag k] is the value the [k]-th read of it
    sees. *)
Variable global_status_flag : nat -> Z.

(** [std::to_string(double)] and the stream insertion of a [double], of the
    C++ standard library. *)
Variable to_string : float -> string.
Variable stream_double : float -> string.

Definition poll : M Z :=
  fun st => Val (global_status_flag (st_polls st)) (mkState (st_env st) (S (st_polls st))).

(** [Atom::asString] *)
Definition asString (a : Atom) : string :=
  match a with
  | SymbolKind s => s
  | NumberKind v => stream_double v
  | ComplexKind r i => "(" ++ stream_double r ++ "," ++ stream_double i ++ ")"
  | NoneKind => EmptyString
  end.

Section Handlers.

(** The recursive calls of [eval] made by the handlers. *)
Variable eval : Expression -> M Expression.

(** The loops [for (it ...) results.push_back(it->eval(env))] *)
Fixpoint eval_each (items : list Expression) : M (list Expression) :=
  match items with
  | [] => ret []
  | it :: rest =>
      let* r := eval it in
      let* rs := eval_each rest in
      ret (r :: rs)
  end.

(** The loop of [apply] over the argument template: each parameter is
    shadowed by the argument at the same position. *)
Fixpoint shadow_params (scope : Environment) (params args : list Expression) : Environment :=
  match params, args with
  | p :: params', a :: args' =>
      shadow_params (shadowing_helper scope (m_head p) a) params' args'
  | _, _ => scope
  end.

(** [apply(op, args, env)] *)
Definition apply (op : Atom) (args : list Expression) : M Expression :=
  let* env := get_env in
  if isLambda (get_exp env op) then
    let lambda := get_exp env op in
    match m_tail lambda with
    | [] => fault
    | arg_template :: _ =>
        if negb (length args =? tailLength arg_template)%nat then
          throw "Error: during apply: Error in call to procedure: invalid number of arguments."
        else
          let inner_scope := shadow_params env (m_tail arg_template) args in
          match last (m_tail lambda) with
          | Some body => in_scope inner_scope (eval body)
          | None => fault
          end
    end
  else if negb (isSymbol op) then
    throw "Error during evaluation: not a symbol"
  else if negb (is_proc env op) then
    throw "Error during evaluation: symbol does not name a procedure"
  else
    match get_proc env op with
    | Some proc => call_proc proc args
    | None => fault
    end.

(** [Expression::handle_lookup] *)
Definition handle_lookup (head : Atom) : M Expression :=
  let* env := get_env in
  if isSymbol head then
    if is_exp env head then ret (get_exp env head)
    else throw ("Error during handle lookup: unknown symbol " ++ asString head)
  else if isNumber head || isComplex head || isString head then
    ret (Expression_atom head)
  else
    throw "Error during handle lookup: Invalid type in terminal expression".

(** The loop of [handle_begin] *)
Fixpoint begin_loop (items : list Expression) (result : Expression) : M Expression :=
  match items with
  | [] => ret result
  | it :: rest =>
      let* r := eval it in
      begin_loop rest r
  end.

(** [Expression::handle_begin] *)
Definition handle_begin (e : Expression) : M Expression :=
  begin_loop (m_tail e) Expression_default.

(** [Expression::handle_define] *)
Definition handle_define (e : Expression) : M Expression :=
  match m_tail e with
  | [t0; t1] =>
      if negb (isSymbol (m_head t0)) then
        throw "Error during handle define: first argument to define not symbol"
      else
        let s := asSymbol (m_head t0) in
        let* env := get_env in
        if (s =? "define") || (s =? "begin") || (s =? "lambda") || (s =? "list") then
          throw "Error during handle define: attempt to redefine a special-form"
        else if is_proc env (m_head t0) then
          throw "Error during handle define: attempt to redefine a built-in procedure"
        else if (s =? "pi") || (s =? "e") || (s =? "I") then
          throw "Error during handle define: attempt to redefine a built-in symbol"
        else
          let* result := eval t1 in
          let* env' := get_env in
          let* _ := put_env (add_exp env' (m_head t0) result) in
          ret result
  | _ => throw "Error during handle define: invalid number of arguments to define"
  end.

(** [Expression::handle_list] *)
Definition handle_list (e : Expression) : M Expression :=
  let* listItems := eval_each (m_tail e) in
  ret (Expression_list listItems).

(** [Expression::handle_lambda]: [m_tail[0]] and [m_tail[1]] are read
    without a check of the size. *)
Definition handle_lambda (e : Expression) : M Expression :=
  match m_tail e with
  | t0 :: t1 :: _ =>
      let argument_template := Expression_atom (m_head t0) :: m_tail t0 in
      ret (Expression_lambda argument_template t1)
  | _ => fault
  end.

(** [Expression::handle_apply] *)
Definition handle_apply (e : Expression) : M Expression :=
  match m_tail e with
  | [t0; t1] =>
      let op := m_head t0 in
      let* env := get_env in
      if negb (isLambda (get_exp env op))
         && (negb (is_proc env op) || (0 <? tailLength t0)%nat) then
        throw "Error: first argument to apply not a procedure"
      else
        let* arguments := eval t1 in
        if negb (isList arguments) then
          throw "Error: second argument to apply not a list"
        else apply op (m_tail arguments)
  | _ => throw "Error during apply: invalid number of arguments"
  end.

(** The loop of [handle_map]: the operator is applied to one element at a
    time. *)
Fixpoint map_loop (op : Atom) (items return_args : list Expression) : M (list Expression) :=
  match items with
  | [] => ret return_args
  | x :: rest =>
      let* temp_e := apply op [x] in
      map_loop op rest (return_args ++ [temp_e])
  end.

(** [Expression::handle_map] *)
Definition handle_map (e : Expression) : M Expression :=
  match m_tail e with
  | [t0; t1] =>
      let op := m_head t0 in
      let* env := get_env in
      if negb (isLambda (get_exp env op))
         && (negb (is_proc env op) || (0 <? tailLength t0)%nat) then
        throw "Error: first argument to map not a procedure"
      else
        let* list_evaled := eval t1 in
        if negb (isList list_evaled) then
          throw "Error: second argument to apply not a list"
        else
          let* return_args := map_loop (m_head t0) (m_tail list_evaled) [] in
          ret (Expression_list return_args)
  | _ => throw "Error during map: invalid number of arguments"
  end.

(** [Expression::handle_set_property]: the target is evaluated first,
    the value second. *)
Definition handle_set_property (e : Expression) : M Expression :=
  match m_tail e with
  | [t0; t1; t2] =>
      if isString (m_head t0) then
        let* result := eval t2 in
        let key := asString (m_head t0) in
        let result :=
          match m_properties result !! key with
          | Some _ => eraseProperty result key
          | None => result
          end in
        let* value := eval t1 in
        ret (assignProperty result key value)
      else throw "Error: first argument to set-property not a string."
  | _ => throw "Error invalid number of arguments for set-property."
  end.

(** [Expression::handle_get_property] *)
Definition handle_get_property (e : Expression) : M Expression :=
  match m_tail e with
  | [t0; t1] =>
      let* target := eval t1 in
      if isString (m_head t0) then
        let key := asString (m_head t0) in
        ret (getProperty target key)
      else throw "Error: first argument to get-property not a string."
  | _ => throw "Error: invalid number of arguments for get-property."
  end.

(** The first loop of [handle_discrete_plot]: the extrema of the data,
    as [(xmax, xmin, ymax, ymin)].  A point with fewer than two children
    is read out of range. *)
Fixpoint find_extrema (points : list Expression) (acc : float * float * float * float)
  : option (float * float * float * float) :=
  match points with
  | [] => Some acc
  | p :: rest =>
      match m_tail p with
      | px :: py :: _ =>
          let '(xmax, xmin, ymax, ymin) := acc in
          let xval := asNumber (m_head px) in
          let yval := asNumber (m_head py) in
          find_extrema rest (fmax xval xmax, fmin xval xmin, fmax yval ymax, fmin yval ymin)
      | _ => None
      end
  end.

(** The loop over the options: [result.push_back(opt.m_tail[1])] *)
Fixpoint option_values (options : list Expression) : option (list Expression) :=
  match options with
  | [] => Some []
  | opt :: rest =>
      match m_tail opt with
      | _ :: v :: _ =>
          match option_values rest with
          | Some vs => Some (v :: vs)
          | None => None
          end
      | _ => None
      end
  end.

Definition make_point (x y : float) : M Expression :=
  apply (SymbolKind "make-point") [number x; number y].

Definition make_line (a b : Expression) : M Expression :=
  apply (SymbolKind "make-line") [a; b].

(** The loop over the data: each point and its stem line. *)
Fixpoint stem_loop (points : list Expression) (stembottomy : float) : M (list Expression) :=
  match points with
  | [] => ret []
  | point :: rest =>
      match m_tail point with
      | px :: py :: _ =>
          let x := asNumber (m_head px) in
          let y := (asNumber (m_head py) * -1)%float in
          let* new_point := make_point x y in
          let* stem_bottom := make_point x stembottomy in
          let* stemline := make_line new_point stem_bottom in
          let* more := stem_loop rest stembottomy in
          ret (new_point :: stemline :: more)
      | _ => fault
      end
  end.

(** [Expression::handle_discrete_plot] *)
Definition handle_discrete_plot (e : Expression) : M Expression :=
  match m_tail e with
  | [t0; t1] =>
      let* DATA := eval t0 in
      let* OPTIONS := eval t1 in
      if negb (isList DATA) || negb (isList OPTIONS) then
        throw "Error: An argument to discrete-plot is not a list"
      else
        let numpoints := tailLength DATA in
        match find_extrema (m_tail DATA) (-999, 999, -999, 999)%float with
        | None => fault
        | Some (xmax, xmin, ymax, ymin) =>
            let AL := xmin in
            let AU := xmax in
            let OL := ymin in
            let OU := ymax in
            let xmiddle := ((xmax + xmin) / 2)%float in
            let ymiddle := ((ymin - ymax) / 2)%float in
            let* topLeft := make_point xmin ymax in
            let* topMid := make_point xmiddle ymax in
            let* topRight := make_point xmax ymax in
            let* midLeft := make_point xmin ymiddle in
            let* midMid := make_point xmiddle ymiddle in
            let* midRight := make_point xmax ymiddle in
            let* botLeft := make_point xmin ymin in
            let* botMid := make_point xmiddle ymin in
            let* botRight := make_point xmax ymin in
            let* leftLine := make_line topLeft botLeft in
            let* rightLine := make_line topRight botRight in
            let* topLine := make_line topLeft topRight in
            let* botLine := make_line botLeft botRight in
            if negb (checkProperty leftLine "object-name" "line") then fault
            else
              let box := [leftLine; rightLine; topLine; botLine] in
              let labels :=
                [Expression_atom (SymbolKind (quoted (to_string AL)));
                 Expression_atom (SymbolKind (quoted (to_string AU)));
                 Expression_atom (SymbolKind (quoted (to_string OL)));
                 Expression_atom (SymbolKind (quoted (to_string OU)))] in
              match option_values (m_tail OPTIONS) with
              | None => fault
              | Some opts =>
                  let numoptions := tailLength OPTIONS in
                  let stembottomy := (fmax 0 ymin * -1)%float in
                  let* stems := stem_loop (m_tail DATA) stembottomy in
                  let* xaxis :=
                    (if PrimFloat.ltb 0%float OU || PrimFloat.ltb OL 0%float then
                       let* xAxisStart := make_point xmax 0%float in
                       let* xAxisEnd := make_point xmin 0%float in
                       let* xaxis := make_line xAxisStart xAxisEnd in
                       ret [xaxis]
                     else ret []) in
                  let* yaxis :=
                    (if PrimFloat.ltb 0%float AU || PrimFloat.ltb AL 0%float then
                       let* yAxisStart := make_point 0%float ymax in
                       let* yAxisEnd := make_point 0%float ymin in
                       let* yaxis := make_line yAxisStart yAxisEnd in
                       ret [yaxis]
                     else ret []) in
                  let result := (box ++ labels ++ opts ++ stems ++ xaxis ++ yaxis)%list in
                  let dp := Expression_plot "DP" result in
                  let dp := assignProperty dp "numpoints" (number (double_of_size numpoints)) in
                  let dp := assignProperty dp "numoptions" (number (double_of_size numoptions)) in
                  ret dp
              end
        end
  | _ => throw "Error: invalid number of arguments for discrete-plot"
  end.

(** [Expression::handle_cont_plot]: everything after the checks of the
    arguments is commented out in the source; what is left returns
    [Expression()]. *)
Definition handle_cont_plot (e : Expression) : M Expression :=
  match m_tail e with
  | FUNC :: BOUNDS :: more =>
      if negb ((length more =? 0)%nat || (length more =? 1)%nat) then
        throw "Error: invalid number of arguments for continuous plot"
      else
        let* f := eval FUNC in
        if negb (isLambda f) then
          throw "Error: first argument to continuous plot not a lambda"
        else
          let* b := eval BOUNDS in
          if negb (isList b) then
            throw "Error: second argument to continuous plot not a list"
          else
            match more with
            | [t2] =>
                let* o := eval t2 in
                if negb (isList o) then
                  throw "Error: third argument to continuous plot not a list"
                else ret Expression_default
            | _ => ret Expression_default
            end
  | _ => throw "Error: invalid number of arguments for continuous plot"
  end.

(** The body of [Expression::eval] *)
Definition eval_body (e : Expression) : M Expression :=
  let* flag := poll in
  if (flag >? 0)%Z then throw "Error: interpreter kernal interupted"
  else
    let name := asSymbol (m_head e) in
    if name =? "list" then handle_list e
    else if (length (m_tail e) =? 0)%nat then handle_lookup (m_head e)
    else if name =? "begin" then handle_begin e
    else if name =? "define" then handle_define e
    else if name =? "lambda" then handle_lambda e
    else if name =? "apply" then handle_apply e
    else if name =? "map" then handle_map e
    else if name =? "set-property" then handle_set_property e
    else if name =? "get-property" then handle_get_property e
    else if name =? "discrete-plot" then handle_discrete_plot e
    else if name =? "continuous-plot" then handle_cont_plot e
    else
      let* results := eval_each (m_tail e) in
      apply (m_head e) results.

End Handlers.

(** [Expression::eval]: the recursion of the C++ function, cut off after
    [fuel] nested calls. *)
Fixpoint eval (fuel : nat) (e : Expression) : M Expression :=
  match fuel with
  | O => fun _ => NoFuel
  | S fuel' => eval_body (eval fuel') e
  end.

End Evaluator.

(** * Definitions used by the statements *)

(** The state after one read of the flag. *)
Definition tick (st : State) : State := mkState (st_env st) (S (st_polls st)).

(** A node for the form [(head child ...)]: the head symbol with the
    children as tail.  [eval] reads the head and the tail of the node it
    evaluates, never its kind or its properties. *)
Definition form (head : string) (children : list Expression) : Expression :=
  mkExpression (SymbolKind head) children ∅ ExpType.Singleton.

Definition symbol (name : string) : Expression := Expression_atom (SymbolKind name).

Definition string_literal (text : string) : Expression :=
  Expression_atom (SymbolKind (quoted text)).

(** The flag is never found set. *)
Definition quiet (flag : nat -> Z) : Prop := forall k, (flag k <= 0)%Z.

Definition quiet_nan : float := nan.

(** The loop of [Expression::operator==], named. *)
Definition tails_eq : list Expression -> list Expression -> bool -> bool :=
  fix loop (ls rs : list Expression) (result : bool) {struct ls} : bool :=
    match ls, rs with
    | lefte :: ls', righte :: rs' =>
        loop ls' rs' (result && Expression_eq lefte righte)
    | _, _ => result
    end.

Section Dispatch.

Variable to_string : float -> string.
Variable stream_double : float -> string.

(** What [eval] does once the flag has been read and found clear. *)
Definition dispatch (ev : Expression -> M Expression) (e : Expression) : M Expression :=
  let name := asSymbol (m_head e) in
  if name =? "list" then handle_list ev e
  else if (length (m_tail e) =? 0)%nat then handle_lookup stream_double (m_head e)
  else if name =? "begin" then handle_begin ev e
  else if name =? "define" then handle_define ev e
  else if name =? "lambda" then handle_lambda e
  else if name =? "apply" then handle_apply ev e
  else if name =? "map" then handle_map ev e
  else if name =? "set-property" then handle_set_property stream_double ev e
  else if name =? "get-property" then handle_get_property stream_double ev e
  else if name =? "discrete-plot" then handle_discrete_plot to_string ev e
  else if name =? "continuous-plot" then handle_cont_plot ev e
  else
    let* results := eval_each ev (m_tail e) in
    apply ev (m_head e) results.

End Dispatch.

(** Every symbol known in [st] is known in [st']. *)
Definition bindings_kept (st st' : State) : Prop :=
  forall s : string, is_Some (st_env st !! s) -> is_Some (st_env st' !! s).

(** Whether it returns or throws, [m] leaves every symbol bound. *)
Definition keeps_bindings {A} (m : M A) : Prop :=
  forall st,
    match m st with
    | Val _ st' | Throw _ st' => bindings_kept st st'
    | Fault | NoFuel => True
    end.

(** The children [items] are evaluated one after the other, each in the
    state its predecessor left, and all return: [results] are their values,
    in order, and the last of them leaves the state [st']. *)
Inductive evaluates_in_order (ev : Expression -> M Expression)
  : list Expression -> State -> list Expression -> State -> Prop :=
| in_order_nil (st : State) : evaluates_in_order ev [] st [] st
| in_order_cons (it : Expression) (rest : list Expression) (st : State)
    (r : Expression) (st1 : State) (rs : list Expression) (st2 : State) :
    ev it st = Val r st1 ->
    evaluates_in_order ev rest st1 rs st2 ->
    evaluates_in_order ev (it :: rest) st (r :: rs) st2.

(** The names of the parameters of a template, in order. *)
Definition param_names (params : list Expression) : list string :=
  (fun p => asSymbol (m_head p)) <$> params.

(** What [handle_set_property] stores: the target with the one property
    replaced. *)
Definition with_property (target : Expression) (key : string) (value : Expression)
  : Expression :=
  assignProperty
    (match m_properties target !! key with
     | Some _ => eraseProperty target key
     | None => target
     end) key value.


(** The program of the scoping example:
    (begin (define x 1) (define f (lambda (x) x)) (f 2)) *)
Definition scoping_program : Expression :=
  form "begin"
    [form "define" [symbol "x"; number 1];
     form "define" [symbol "f"; form "lambda" [symbol "x"; symbol "x"]];
     form "f" [number 2]].

(** ** Built-ins and sample runs *)

(** Modelled from the spec: the built-in make-point (environment.cpp is not
    among the sources).  A List of two numbers with the property object-name
    set to the string point and the default size 0; a semantic error on
    invalid arity or type.  Property keys keep their quotes. *)
Definition make_point_proc : Procedure :=
  fun args =>
    match args with
    | [a; b] =>
        if isNumber (m_head a) && isNumber (m_head b) then
          Returns
            (assignProperty
               (assignProperty (Expression_list [a; b])
                  (quoted "object-name") (string_literal "point"))
               (quoted "size") (number 0))
        else Raises "Error in call to make-point: argument not a number"
    | _ => Raises "Error in call to make-point: invalid number of arguments"
    end.

(** Modelled from the spec: the built-in make-line.  A List of two points
    with the property object-name set to the string line and the default
    thickness 1; a semantic error on invalid arity or type. *)
Definition make_line_proc : Procedure :=
  fun args =>
    match args with
    | [a; b] =>
        if checkProperty a "object-name" "point" && checkProperty b "object-name" "point" then
          Returns
            (assignProperty
               (assignProperty (Expression_list [a; b])
                  (quoted "object-name") (string_literal "line"))
               (quoted "thickness") (number 1))
        else Raises "Error in call to make-line: argument not a point"
    | _ => Raises "Error in call to make-line: invalid number of arguments"
    end.

(** What the two built-ins return on well-typed arguments. *)
Definition point_of (x y : float) : Expression :=
  assignProperty
    (assignProperty (Expression_list [number x; number y])
       (quoted "object-name") (string_literal "point"))
    (quoted "size") (number 0).

Definition line_of (a b : Expression) : Expression :=
  assignProperty
    (assignProperty (Expression_list [a; b])
       (quoted "object-name") (string_literal "line"))
    (quoted "thickness") (number 1).

(** An environment holding the two plot built-ins. *)
Definition plot_env : Environment :=
  <["make-line" := BuiltinProc make_line_proc]>
    (<["make-point" := BuiltinProc make_point_proc]> ∅).

(** [plot_env] after (define x 1) and (define f (lambda (x) x)). *)
Definition scoping_env : Environment :=
  <["f" := BoundExp (Expression_lambda [symbol "x"] (symbol "x"))]>
    (<["x" := BoundExp (number 1)]> plot_env).

(** A flag that is never set, one that is always set, one that is negative,
    and one that is set from the sixth read on. *)
Definition flag_clear : nat -> Z := fun _ => 0%Z.
Definition flag_set : nat -> Z := fun _ => 1%Z.
Definition flag_negative : nat -> Z := fun _ => (-1)%Z.
Definition flag_set_at_6 : nat -> Z := fun k => if (6 <=? k)%nat then 1%Z else 0%Z.

(** A stand-in for the two formatting functions of the C++ library; the
    sample runs below do not depend on the digits they print. *)
Definition no_digits : float -> string := fun _ => "#".

(** (list 1 2) *)
Definition list_1_2 : Expression := form "list" [number 1; number 2].

(** (set-property "key" 42 (list 1 2)) *)
Definition set_key_42 : Expression :=
  form "set-property" [string_literal "key"; number 42; list_1_2].

(** (get-property "key" (set-property "key" 42 (list 1 2))) *)
Definition get_key_of_set : Expression :=
  form "get-property" [string_literal "key"; set_key_42].

(** (get-property "other" (list 1 2)) *)
Definition get_other : Expression :=
  form "get-property" [string_literal "other"; list_1_2].

(** (begin (define a 3) b), with b unbound *)
Definition failing_begin : Expression :=
  form "begin" [form "define" [symbol "a"; number 3]; symbol "b"].

(** (map f (list 1 2 3)) *)
Definition map_f_123 : Expression :=
  form "map" [symbol "f"; form "list" [number 1; number 2; number 3]].



(** ** atom.cpp and expression.cpp: accessors and setters *)

(** [Atom::asComplex] *)
Definition asComplex (a : Atom) : float * float :=
  match a with
  | NumberKind v => (v, 0%float)
  | ComplexKind r i => (r, i)
  | _ => (0%float, 0%float)
  end.

(** [Expression::isDP] *)
Definition isDP (e : Expression) : bool :=
  match m_properties e !! "type" with
  | Some v => Expression_eq v (Expression_atom (SymbolKind "DP"))
  | None => ExpType.eqb (m_type e) ExpType.Plot
  end.

(** The entry with the least key, in the order of [std::string]: the entry
    an iteration over a [std::map] meets first. *)
Fixpoint least_entry (entries : list (string * Expression)) : option (string * Expression) :=
  match entries with
  | [] => None
  | kv :: rest =>
      match least_entry rest with
      | None => Some kv
      | Some kv' => if String.ltb (fst kv) (fst kv') then Some kv else Some kv'
      end
  end.

(** The properties a loop over [m_properties] does not skip when it tests
    [p.first.compare("type")]: [compare] is non-zero for the keys that
    differ from [type]. *)
Definition other_properties (e : Expression) : gmap string Expression :=
  filter (fun kv => fst kv <> "type") (m_properties e).

(** [Expression::isCP]: the loop returns at the first key that is not
    [type], with the comparison of its value; without such a key the
    answer is false. *)
Definition isCP (e : Expression) : bool :=
  match least_entry (map_to_list (other_properties e)) with
  | Some (_, v) => Expression_eq v (Expression_atom (SymbolKind "CP"))
  | None => false
  end.

(** [Expression::getNumericalProperty] *)
Definition getNumericalProperty (e : Expression) (prop : string) : float :=
  match m_properties e !! prop with
  | Some point_size => asNumber (m_head point_size)
  | None => (-1)%float
  end.

(** [Expression::setLineThickness] *)
Definition setLineThickness (e : Expression) (val : float) : Expression :=
  match m_properties e !! quoted "thickness" with
  | Some _ => assignProperty e (quoted "thickness") (number val)
  | None => e
  end.

(** [Expression::setPointSize] *)
Definition setPointSize (e : Expression) (val : float) : Expression :=
  match m_properties e !! quoted "size" with
  | Some _ => assignProperty e (quoted "size") (number val)
  | None => e
  end.

(** [Expression::getTextProperties], as [(x, y, scale, rotation)].  The
    position is read as [cor[0]] and [cor[1]] without a check of the size:
    there is no result when it has fewer than two children. *)
Definition getTextProperties (e : Expression) : option (float * float * float * float) :=
  let sf :=
    match m_properties e !! quoted "text-scale" with
    | Some v =>
        let sf := asNumber (m_head v) in
        if PrimFloat.ltb sf 1 then 1%float else sf
    | None => 1%float
    end in
  let rot :=
    match m_properties e !! quoted "text-rotation" with
    | Some v => asNumber (m_head v)
    | None => 0%float
    end in
  match m_properties e !! quoted "position" with
  | Some point =>
      match m_tail point with
      | cx :: cy :: _ => Some (asNumber (m_head cx), asNumber (m_head cy), sf, rot)
      | _ => None
      end
  | None => Some (0, 0, 1, 0)%float
  end.

Section TextPosition.

(** [std::atan(1)], of the C++ library *)
Variable atan_1 : float.

(** [Expression::setTextPosition]: there is no result when the [assert] on
    the point fails. *)
Definition setTextPosition (e point : Expression) (rot : float) : option Expression :=
  let placed :=
    match m_properties e !! quoted "position" with
    | Some _ =>
        if checkProperty point "object-name" "point"
        then Some (assignProperty e (quoted "position") point)
        else None
    | None => Some e
    end in
  match placed with
  | Some e1 =>
      match m_properties e1 !! quoted "text-rotation" with
      | Some _ =>
          Some (assignProperty e1 (quoted "text-rotation")
                  (number (rot * atan_1 * 4 / 180)%float))
      | None => Some e1
      end
  | None => None
  end.

End TextPosition.

(** ** The REPL: the consumer and the reader *)

Section Repl.

(** The class [Interpreter] is declared in interpreter.hpp, which is not
    among the sources: its state and its two operations are parameters.
    [parseStream] answers whether the text parsed; [evaluate] returns an
    expression or the message of the [SemanticError] it throws.  Both may
    change the interpreter. *)
Variable Interpreter : Type.
Variable parseStream : Interpreter -> string -> bool * Interpreter.
Variable evaluate : Interpreter -> (Expression + string) * Interpreter.

(** [output_type] *)
Definition output_type : Type := Expression * string.

(** The body of the loop of [Consumer::operator()] for a line that is not
    empty: what is pushed on the output queue. *)
Definition consume_line (interp : Interpreter) (line : string) : output_type * Interpreter :=
  let (parsed, interp1) := parseStream interp line in
  if negb parsed then
    ((Expression_default, "Invalid Expression. Could not parse."), interp1)
  else
    match evaluate interp1 with
    | (inl result, interp2) => ((result, EmptyString), interp2)
    | (inr what, interp2) => ((Expression_default, what), interp2)
    end.

(** Where the consumer is when the lines popped so far are used up:
    blocked in [wait_and_pop], or out of its loop. *)
Inductive ConsumerStatus : Type := Waiting | Stopped.

(** [Consumer::operator()] on the lines it pops from the input queue, in
    order: the outputs it pushes, the interpreter, and where it is. *)
Fixpoint consumer (interp : Interpreter) (popped : list string)
  : list output_type * Interpreter * ConsumerStatus :=
  match popped with
  | [] => ([], interp, Waiting)
  | line :: rest =>
      if line =? EmptyString then ([], interp, Stopped)
      else
        let (output, interp1) := consume_line interp line in
        let '(outputs, interp2, status) := consumer interp1 rest in
        (output :: outputs, interp2, status)
  end.

(** What [repl] writes for one output: the expression to [std::cout] when
    the message is empty, the message to [std::cerr] otherwise. *)
Inductive Printed : Type :=
| ToCout (result : Expression)
| ToCerr (what : string).

Definition print_output (output : output_type) : Printed :=
  if snd output =? EmptyString then ToCout (fst output) else ToCerr (snd output).

(** The lines [repl] pushes on the input queue, given the lines it reads:
    [if(line.empty()) continue;] *)
Definition repl_pushed (lines : list string) : list string :=
  List.filter (fun line => negb (line =? EmptyString)) lines.

(** [repl] on the lines it reads, up to the end of the input: each pushed
    line is answered by one output before the next line is read, so the
    consumer pops exactly the pushed lines. *)
Definition repl (interp : Interpreter) (lines : list string)
  : list Printed * Interpreter * ConsumerStatus :=
  let '(outputs, interp', status) := consumer interp (repl_pushed lines) in
  (List.map print_output outputs, interp', status).

End Repl.

(** ** Relations between the environment before and after an evaluation *)

(** The names [handle_define] refuses by their text. *)
Definition reserved_names : list string :=
  ["define"; "begin"; "lambda"; "list"; "pi"; "e"; "I"].

(** The built-in procedures are the same in [env] and [env']. *)
Definition same_procs (env env' : Environment) : Prop :=
  forall (s : string) (p : Procedure),
    env !! s = Some (BuiltinProc p) <-> env' !! s = Some (BuiltinProc p).

(** The reserved names are bound in [env'] as they are in [env]. *)
Definition same_reserved (env env' : Environment) : Prop :=
  forall s : string, In s reserved_names -> env' !! s = env !! s.

(** Whether it returns or throws, [m] leaves the environment related to the
    one it started in. *)
Definition respects (R : Environment -> Environment -> Prop) {A} (m : M A) : Prop :=
  forall st,
    match m st with
    | Val _ st' | Throw _ st' => R (st_env st) (st_env st')
    | Fault | NoFuel => True
    end.

(** Modelled from the spec: the built-in list in its procedure form (any
    number of arguments, returns a List). *)
Definition list_proc : Procedure := fun args => Returns (Expression_list args).

(** [plot_env] with the built-in list. *)
Definition builtin_env : Environment :=
  <["list" := BuiltinProc list_proc]> plot_env.

(** A text with a position, a scale and a rotation, for the sample runs. *)
Definition sample_text : Expression :=
  assignProperty
    (assignProperty
       (assignProperty (string_literal "hello") (quoted "position") (point_of 0 0))
       (quoted "text-scale") (number 0.5))
    (quoted "text-rotation") (number 0).

(** An interpreter that parses every line but the line [?] and evaluates
    to the unset expression, for the sample runs of the consumer. *)
Definition sample_parse (interp : nat) (line : string) : bool * nat :=
  (negb (line =? "?"), S interp).

Definition sample_evaluate (interp : nat) : (Expression + string) * nat :=
  (inl Expression_default, interp).

(** ** The children of a discrete plot, told from the data *)





(** ** More sample runs *)

(** A flag that is set from the fifth read on. *)
Definition flag_set_at_5 : nat -> Z := fun k => if (5 <=? k)%nat then 1%Z else 0%Z.

(** (map list (list 1 2 3)) *)
Definition map_list_123 : Expression :=
  form "map" [symbol "list"; form "list" [number 1; number 2; number 3]].




(** * Properties *)

(** ** Equality of atoms and of expressions *)

(** C9.  [Atom::operator==] on a NaN: the number variant tests
    [std::isnan(diff)] and answers false; the complex variant has no such
    test, every comparison of a NaN difference with the bound is false, and
    two complex atoms with a NaN component compare equal. *)
Theorem Atom_eq_complex_nan :
  Atom_eq (NumberKind quiet_nan) (NumberKind quiet_nan) = false /\
  Atom_eq (ComplexKind quiet_nan 0) (ComplexKind quiet_nan 0) = true /\
  Atom_eq (ComplexKind quiet_nan 0) (ComplexKind 1 0) = true.
Proof. vm_compute. auto. Qed.

Lemma Expression_eq_unfold (a b : Expression) :
  Expression_eq a b =
    (if Atom_eq (m_head a) (m_head b) && (length (m_tail a) =? length (m_tail b))%nat
     then tails_eq (m_tail a) (m_tail b) true
     else false).
Proof.
  destruct a as [ha ta pa ka]; cbn [Expression_eq m_head m_tail].
  destruct (Atom_eq ha (m_head b) && (length ta =? length (m_tail b))%nat);
    reflexivity.
Qed.




(** ** One step of evaluation *)

Section EvalFacts.

Variable global_status_flag : nat -> Z.
Variable to_string : float -> string.
Variable stream_double : float -> string.

#[local] Abbreviation eval := (eval global_status_flag to_string stream_double).
#[local] Abbreviation eval_body := (eval_body global_status_flag to_string stream_double).
#[local] Abbreviation dispatch := (dispatch to_string stream_double).

Lemma eval_unfold (fuel : nat) (e : Expression) :
  eval (S fuel) e = eval_body (eval fuel) e.
Proof. reflexivity. Qed.

Lemma eval_body_interrupted ev (e : Expression) (st : State) :
  (global_status_flag (st_polls st) > 0)%Z ->
  eval_body ev e st = Throw "Error: interpreter kernal interupted" (tick st).
Proof.
  intros Hflag. unfold eval_body, bind, poll.
  destruct (Z.gtb_spec (global_status_flag (st_polls st)) 0) as [_|Hle]; [reflexivity | lia].
Qed.

Lemma eval_body_clear ev (e : Expression) (st : State) :
  (global_status_flag (st_polls st) <= 0)%Z ->
  eval_body ev e st = dispatch ev e (tick st).
Proof.
  intros Hflag. unfold eval_body, bind, poll.
  destruct (Z.gtb_spec (global_status_flag (st_polls st)) 0) as [Hgt|_]; [lia | reflexivity].
Qed.

Lemma eval_clear (fuel : nat) (e : Expression) (st : State) :
  (global_status_flag (st_polls st) <= 0)%Z ->
  eval (S fuel) e st = dispatch (eval fuel) e (tick st).
Proof. intros H. rewrite eval_unfold. apply eval_body_clear, H. Qed.

(** The empty-tail rule, for every head whose text is not [list]. *)
Lemma dispatch_lookup ev (e : Expression) :
  asSymbol (m_head e) <> "list" ->
  m_tail e = [] ->
  dispatch ev e = handle_lookup stream_double (m_head e).
Proof.
  intros Hname Htail. unfold dispatch.
  destruct (String.eqb_spec (asSymbol (m_head e)) "list") as [Heq|_]; [contradiction|].
  rewrite Htail. reflexivity.
Qed.

Lemma dispatch_special ev (e : Expression) (name : string) :
  asSymbol (m_head e) = name ->
  m_tail e <> [] ->
  dispatch ev e =
    if name =? "list" then handle_list ev e
    else if name =? "begin" then handle_begin ev e
    else if name =? "define" then handle_define ev e
    else if name =? "lambda" then handle_lambda e
    else if name =? "apply" then handle_apply ev e
    else if name =? "map" then handle_map ev e
    else if name =? "set-property" then handle_set_property stream_double ev e
    else if name =? "get-property" then handle_get_property stream_double ev e
    else if name =? "discrete-plot" then handle_discrete_plot to_string ev e
    else if name =? "continuous-plot" then handle_cont_plot ev e
    else
      let* results := eval_each ev (m_tail e) in
      apply ev (m_head e) results.
Proof.
  intros Hname Htail. unfold dispatch. rewrite Hname.
  destruct (m_tail e) as [|c cs]; [contradiction|]. reflexivity.
Qed.

(** The rule of [handle_lookup], case by case. *)
Lemma handle_lookup_cases (head : Atom) (st : State) :
  handle_lookup stream_double head st =
    if isSymbol head then
      if is_exp (st_env st) head then Val (get_exp (st_env st) head) st
      else Throw ("Error during handle lookup: unknown symbol " ++ asString stream_double head) st
    else if isNumber head || isComplex head || isString head then
      Val (Expression_atom head) st
    else Throw "Error during handle lookup: Invalid type in terminal expression" st.
Proof.
  unfold handle_lookup, bind, get_env.
  destruct (isSymbol head); [destruct (is_exp (st_env st) head); reflexivity|].
  destruct (isNumber head || isComplex head || isString head); reflexivity.
Qed.

(** X26.  What the empty-tail rule yields when the head's text is not [list]:
    numbers, complex numbers and strings evaluate to themselves as
    singletons, a symbol to the expression bound to it, and an unbound
    symbol fails. *)
Lemma eval_empty_tail (fuel : nat) (e : Expression) (st : State) :
  (global_status_flag (st_polls st) <= 0)%Z ->
  m_tail e = [] ->
  asSymbol (m_head e) <> "list" ->
  (isNumber (m_head e) || isComplex (m_head e) || isString (m_head e) = true ->
     eval (S fuel) e st = Val (Expression_atom (m_head e)) (tick st)) /\
  (isSymbol (m_head e) = true ->
     forall bound, st_env st !! asSymbol (m_head e) = Some (BoundExp bound) ->
     eval (S fuel) e st = Val bound (tick st)) /\
  (isSymbol (m_head e) = true ->
     is_exp (st_env st) (m_head e) = false ->
     eval (S fuel) e st =
       Throw ("Error during handle lookup: unknown symbol " ++ asString stream_double (m_head e))
             (tick st)).
Proof.
  intros Hflag Htail Hname.
  rewrite (eval_clear _ _ _ Hflag), (dispatch_lookup _ _ Hname Htail), handle_lookup_cases.
  cbn [tick st_env].
  split; [|split].
  - intros Hself.
    assert (isSymbol (m_head e) = false) as ->.
    { destruct (m_head e) as [| |s|]; cbn in *; try reflexivity.
      destruct (Ascii.eqb (first_char s) dquote); [reflexivity | discriminate]. }
    rewrite Hself. reflexivity.
  - intros Hsym bound Hbound. rewrite Hsym.
    unfold is_exp, get_exp. rewrite Hsym, Hbound. reflexivity.
  - intros Hsym Hunbound. rewrite Hsym, Hunbound. reflexivity.
Qed.

(** C1.  The string literal whose text is [list] has an empty tail and a
    string head, yet it does not evaluate to itself: [asSymbol] drops the
    quotes, the test for the [list] form comes first and does not ask for a
    symbol, and the result is the empty List. *)
Theorem eval_string_literal_list (fuel : nat) (st : State) :
  (global_status_flag (st_polls st) <= 0)%Z ->
  isString (m_head (string_literal "list")) = true /\
  m_tail (string_literal "list") = [] /\
  eval (S fuel) (string_literal "list") st = Val (Expression_list []) (tick st) /\
  Expression_list [] <> Expression_atom (m_head (string_literal "list")).
Proof.
  intros Hflag. split; [reflexivity|]. split; [reflexivity|].
  split; [|discriminate].
  rewrite (eval_clear _ _ _ Hflag). reflexivity.
Qed.

(** ** define *)

Lemma eval_number (fuel : nat) (v : float) (st : State) :
  (global_status_flag (st_polls st) <= 0)%Z ->
  eval (S fuel) (number v) st = Val (number v) (tick st).
Proof. intros Hflag. rewrite (eval_clear _ _ _ Hflag). reflexivity. Qed.

Lemma dispatch_define ev (e : Expression) :
  asSymbol (m_head e) = "define" ->
  m_tail e <> [] ->
  dispatch ev e = handle_define ev e.
Proof. intros Hname Htail. rewrite (dispatch_special _ _ _ Hname Htail). reflexivity. Qed.

(** X27.  The names [handle_define] refuses: four of the special forms, the
    built-in procedures of the environment, and the three constants.  The
    environment is left as it was. *)
Lemma define_refuses (fuel : nat) (e target value : Expression) (st : State) :
  (global_status_flag (st_polls st) <= 0)%Z ->
  asSymbol (m_head e) = "define" ->
  m_tail e = [target; value] ->
  isSymbol (m_head target) = true ->
  In (asSymbol (m_head target)) ["define"; "begin"; "lambda"; "list"; "pi"; "e"; "I"]
    \/ is_proc (st_env st) (m_head target) = true ->
  exists what, eval (S fuel) e st = Throw what (tick st).
Proof.
  intros Hflag Hname Htail Hsym Hreserved.
  rewrite (eval_clear _ _ _ Hflag), dispatch_define by (try rewrite Htail; done).
  unfold handle_define, bind, get_env, throw. rewrite Htail, Hsym. cbn [negb tick st_env].
  destruct Hreserved as [Hin|Hproc].
  - cbn in Hin.
    destruct Hin as [<-|[<-|[<-|[<-|Hin]]]]; cbn; eauto.
    destruct (is_proc (st_env st) (m_head target)); [destruct (_ || _); eauto|].
    destruct Hin as [<-|[<-|[<-|[]]]]; cbn; eauto.
  - rewrite Hproc. destruct (_ || _); eauto.
Qed.

(** C3.  The six special forms [handle_define] does not list can be
    redefined: the define succeeds and binds the name. *)
Theorem define_rebinds_special_form (fuel : nat) (name : string) (st : State) :
  quiet global_status_flag ->
  In name ["apply"; "map"; "set-property"; "get-property";
           "discrete-plot"; "continuous-plot"] ->
  is_proc (st_env st) (SymbolKind name) = false ->
  eval (S (S fuel)) (form "define" [symbol name; number 3]) st
  = Val (number 3)
        (mkState (<[name := BoundExp (number 3)]> (st_env st)) (S (S (st_polls st)))).
Proof.
  intros Hquiet Hname Hproc.
  rewrite eval_clear, dispatch_define by (try apply Hquiet; done).
  unfold handle_define, bind, get_env, put_env, ret.
  cbn [m_tail m_head form symbol Expression_atom].
  cbn in Hname.
  destruct Hname as [<-|[<-|[<-|[<-|[<-|[<-|[]]]]]]];
    cbn [isSymbol first_char Ascii.eqb Bool.eqb dquote negb tick st_env];
    rewrite Hproc;
    cbn [asSymbol remove_quotes Ascii.eqb Bool.eqb dquote String.eqb orb];
    rewrite eval_number by apply Hquiet;
    reflexivity.
Qed.

(** ** Evaluation never unbinds a symbol *)

Lemma bindings_kept_refl (st : State) : bindings_kept st st.
Proof. intros s H. exact H. Qed.

Lemma bindings_kept_trans (st1 st2 st3 : State) :
  bindings_kept st1 st2 -> bindings_kept st2 st3 -> bindings_kept st1 st3.
Proof. intros H12 H23 s H. auto. Qed.

Lemma kb_ret {A} (a : A) : keeps_bindings (ret a).
Proof. intros st. apply bindings_kept_refl. Qed.

Lemma kb_throw {A} (what : string) : keeps_bindings (@throw A what).
Proof. intros st. apply bindings_kept_refl. Qed.

Lemma kb_fault {A} : keeps_bindings (@fault A).
Proof. intros st. exact I. Qed.

Lemma kb_get_env : keeps_bindings get_env.
Proof. intros st. apply bindings_kept_refl. Qed.

Lemma kb_poll : keeps_bindings (poll global_status_flag).
Proof. intros st s H. exact H. Qed.

Lemma kb_call_proc (proc : Procedure) (args : list Expression) :
  keeps_bindings (call_proc proc args).
Proof. unfold call_proc. destruct (proc args); [apply kb_ret | apply kb_throw]. Qed.

Lemma kb_bind {A B} (m : M A) (k : A -> M B) :
  keeps_bindings m -> (forall a, keeps_bindings (k a)) -> keeps_bindings (bind m k).
Proof.
  intros Hm Hk st. unfold bind. specialize (Hm st).
  destruct (m st) as [a st1|what st1| |]; try exact I; [|exact Hm].
  specialize (Hk a st1). destruct (k a st1); try exact I;
    eapply bindings_kept_trans; eassumption.
Qed.

Lemma kb_in_scope {A} (inner : Environment) (m : M A) : keeps_bindings (in_scope inner m).
Proof.
  intros st. unfold in_scope.
  destruct (m _); try exact I; intros s H; exact H.
Qed.

(** The binding made by [handle_define] *)
Lemma kb_add_exp (sym : Atom) (result : Expression) :
  keeps_bindings (let* env' := get_env in
                  let* _ := put_env (add_exp env' sym result) in
                  ret result).
Proof.
  intros st s H. cbn. unfold add_exp.
  destruct (decide (asSymbol sym = s)) as [->|Hne].
  - rewrite lookup_insert_eq. eauto.
  - rewrite lookup_insert_ne by exact Hne. exact H.
Qed.

Create HintDb keeps discriminated.
#[local] Hint Resolve kb_ret kb_throw kb_fault kb_get_env kb_poll kb_call_proc
  kb_in_scope kb_add_exp : keeps.

(** One step through the body of a handler: a bind, a branch, or a leaf. *)
Ltac keeps_step :=
  first
    [ solve [auto with keeps]
    | apply kb_bind; [|intros ?]
    | match goal with
      | |- keeps_bindings (if ?b then _ else _) => destruct b
      | |- keeps_bindings (match ?x with _ => _ end) => destruct x
      end ].

Ltac keeps := cbv zeta; repeat keeps_step.

Section HandlersKeep.

Variable ev : Expression -> M Expression.
Hypothesis ev_keeps : forall e, keeps_bindings (ev e).

#[local] Hint Resolve ev_keeps : keeps.

Lemma kb_eval_each (items : list Expression) : keeps_bindings (eval_each ev items).
Proof. induction items as [|it rest IH]; cbn [eval_each]; keeps. Qed.

Lemma kb_apply (op : Atom) (args : list Expression) : keeps_bindings (apply ev op args).
Proof. unfold apply. keeps. Qed.

#[local] Hint Resolve kb_eval_each kb_apply : keeps.

Lemma kb_begin_loop (items : list Expression) (result : Expression) :
  keeps_bindings (begin_loop ev items result).
Proof. revert result. induction items as [|it rest IH]; intros result; cbn [begin_loop]; keeps. Qed.

Lemma kb_map_loop (op : Atom) (items acc : list Expression) :
  keeps_bindings (map_loop ev op items acc).
Proof. revert acc. induction items as [|it rest IH]; intros acc; cbn [map_loop]; keeps. Qed.

Lemma kb_make_point (x y : float) : keeps_bindings (make_point ev x y).
Proof. apply kb_apply. Qed.

Lemma kb_make_line (a b : Expression) : keeps_bindings (make_line ev a b).
Proof. apply kb_apply. Qed.

#[local] Hint Resolve kb_begin_loop kb_map_loop kb_make_point kb_make_line : keeps.

Lemma kb_stem_loop (points : list Expression) (stembottomy : float) :
  keeps_bindings (stem_loop ev points stembottomy).
Proof. induction points as [|p rest IH]; cbn [stem_loop]; keeps. Qed.

#[local] Hint Resolve kb_stem_loop : keeps.

Lemma kb_eval_body (e : Expression) : keeps_bindings (eval_body ev e).
Proof.
  unfold eval_body, handle_list, handle_lookup, handle_begin, handle_define,
    handle_lambda, handle_apply, handle_map, handle_set_property,
    handle_get_property, handle_discrete_plot, handle_cont_plot.
  keeps.
Qed.

End HandlersKeep.

Lemma kb_eval (fuel : nat) (e : Expression) : keeps_bindings (eval fuel e).
Proof.
  revert e. induction fuel as [|fuel IH]; intros e.
  - intros st. exact I.
  - rewrite eval_unfold. apply kb_eval_body, IH.
Qed.

Lemma eval_Val_keeps (fuel : nat) (e : Expression) (st : State) (v : Expression) (st' : State) :
  eval fuel e st = Val v st' -> bindings_kept st st'.
Proof. intros H. pose proof (kb_eval fuel e st) as K. rewrite H in K. exact K. Qed.

Lemma eval_Throw_keeps (fuel : nat) (e : Expression) (st : State) (what : string) (st' : State) :
  eval fuel e st = Throw what st' -> bindings_kept st st'.
Proof. intros H. pose proof (kb_eval fuel e st) as K. rewrite H in K. exact K. Qed.

(** ** begin *)

Lemma evaluates_in_order_length ev items st results st' :
  evaluates_in_order ev items st results st' -> length results = length items.
Proof. induction 1; cbn; congruence. Qed.

Lemma evaluates_in_order_keeps ev items st results st' :
  (forall e, keeps_bindings (ev e)) ->
  evaluates_in_order ev items st results st' -> bindings_kept st st'.
Proof.
  intros Hev. induction 1 as [st|it rest st r st1 rs st2 Hit _ IH].
  - apply bindings_kept_refl.
  - eapply bindings_kept_trans; [|exact IH].
    pose proof (Hev it st) as K. rewrite Hit in K. exact K.
Qed.

Lemma last_cons_default {A} (r : A) (rs : list A) (d : A) :
  List.last (r :: rs) d = List.last rs r.
Proof.
  revert r d. induction rs as [|x rs IH]; intros r d; [reflexivity|].
  change (List.last (x :: rs) d = List.last (x :: rs) r).
  rewrite !IH. reflexivity.
Qed.

Lemma begin_loop_in_order ev items st results st' (result : Expression) :
  evaluates_in_order ev items st results st' ->
  begin_loop ev items result st = Val (List.last results result) st'.
Proof.
  intros H. revert result.
  induction H as [st|it rest st r st1 rs st2 Hit _ IH]; intros result.
  - reflexivity.
  - cbn [begin_loop]. unfold bind. rewrite Hit, IH.
    rewrite last_cons_default. reflexivity.
Qed.

Lemma begin_loop_throws ev pre c post st results st1 what st2 (result : Expression) :
  evaluates_in_order ev pre st results st1 ->
  ev c st1 = Throw what st2 ->
  begin_loop ev (pre ++ c :: post)%list result st = Throw what st2.
Proof.
  intros H Hc. revert result.
  induction H as [st|it rest st r st1 rs st2' Hit _ IH]; intros result.
  - cbn. unfold bind. rewrite Hc. reflexivity.
  - cbn [app begin_loop]. unfold bind at 1. rewrite Hit. apply IH, Hc.
Qed.

Lemma dispatch_begin ev (e : Expression) :
  asSymbol (m_head e) = "begin" ->
  m_tail e <> [] ->
  dispatch ev e = handle_begin ev e.
Proof. intros Hname Htail. rewrite (dispatch_special _ _ _ Hname Htail). reflexivity. Qed.

(** C4, as the code has it.  A begin form with at least one child evaluates
    the children in order and returns the value of the last.  Given no
    children [handle_begin] returns the unset [Expression()], but [eval]
    never calls it so: the empty-tail rule comes first, and a begin form
    without children is a lookup of its head. *)
Theorem eval_begin_in_order (fuel : nat) (e : Expression) (st : State)
    (results : list Expression) (st' : State) :
  (global_status_flag (st_polls st) <= 0)%Z ->
  asSymbol (m_head e) = "begin" ->
  m_tail e <> [] ->
  evaluates_in_order (eval fuel) (m_tail e) (tick st) results st' ->
  eval (S fuel) e st = Val (List.last results Expression_default) st' /\
  length results = length (m_tail e) /\
  (forall ev e0 st0, m_tail e0 = [] -> handle_begin ev e0 st0 = Val Expression_default st0) /\
  (forall e0, asSymbol (m_head e0) = "begin" -> m_tail e0 = [] ->
     eval (S fuel) e0 st = handle_lookup stream_double (m_head e0) (tick st)).
Proof.
  intros Hflag Hname Htail Hchildren.
  split; [|split; [|split]].
  - rewrite (eval_clear _ _ _ Hflag), (dispatch_begin _ _ Hname Htail).
    unfold handle_begin. apply begin_loop_in_order, Hchildren.
  - eapply evaluates_in_order_length, Hchildren.
  - intros ev e0 st0 H0. unfold handle_begin. rewrite H0. reflexivity.
  - intros e0 Hname0 Htail0.
    rewrite (eval_clear _ _ _ Hflag). rewrite dispatch_lookup; [reflexivity| |exact Htail0].
    rewrite Hname0. discriminate.
Qed.

(** C8.  When a child of a begin form throws, the form throws the same
    error, in the state the failing child left: nothing the earlier children
    did to the environment is undone, and every symbol bound when the
    failing child started is bound after the failure. *)
Theorem begin_failure_keeps_bindings (fuel : nat) (e : Expression) (st : State)
    (pre : list Expression) (c : Expression) (post : list Expression)
    (results : list Expression) (st1 : State) (what : string) (st2 : State) :
  (global_status_flag (st_polls st) <= 0)%Z ->
  asSymbol (m_head e) = "begin" ->
  m_tail e = (pre ++ c :: post)%list ->
  evaluates_in_order (eval fuel) pre (tick st) results st1 ->
  eval fuel c st1 = Throw what st2 ->
  eval (S fuel) e st = Throw what st2 /\
  bindings_kept st st1 /\
  bindings_kept st1 st2.
Proof.
  intros Hflag Hname Htail Hpre Hc.
  split; [|split].
  - rewrite (eval_clear _ _ _ Hflag), dispatch_begin;
      [|exact Hname|rewrite Htail; destruct pre; discriminate].
    unfold handle_begin. rewrite Htail.
    eapply begin_loop_throws; eassumption.
  - apply (bindings_kept_trans _ (tick st)); [intros s H; exact H|].
    eapply evaluates_in_order_keeps; [|exact Hpre]. intros e0. apply kb_eval.
  - eapply eval_Throw_keeps, Hc.
Qed.

(** ** The interrupt flag *)

Lemma map_loop_app ev (op : Atom) (done rest acc : list Expression)
    (st : State) (acc1 : list Expression) (st1 : State) :
  map_loop ev op done acc st = Val acc1 st1 ->
  map_loop ev op (done ++ rest)%list acc st = map_loop ev op rest acc1 st1.
Proof.
  revert acc st. induction done as [|x done IH]; intros acc st H.
  - cbn in H. injection H as <- <-. reflexivity.
  - cbn [app map_loop] in *. unfold bind in *.
    destruct (apply ev op [x] st) as [v st0| | |]; try discriminate.
    apply IH, H.
Qed.

(** Applying a lambda of one parameter evaluates its body in the inner
    scope. *)
Lemma apply_lambda ev (op : Atom) (args : list Expression) (st : State)
    (template body : Expression) :
  isLambda (get_exp (st_env st) op) = true ->
  m_tail (get_exp (st_env st) op) = [template; body] ->
  length args = tailLength template ->
  apply ev op args st
  = in_scope (shadow_params (st_env st) (m_tail template) args) (ev body) st.
Proof.
  intros Hlam Htail Hlen. unfold apply, bind, get_env.
  rewrite Hlam, Htail. rewrite Hlen, Nat.eqb_refl. reflexivity.
Qed.

Lemma dispatch_map ev (e : Expression) :
  asSymbol (m_head e) = "map" ->
  m_tail e <> [] ->
  dispatch ev e = handle_map ev e.
Proof. intros Hname Htail. rewrite (dispatch_special _ _ _ Hname Htail). reflexivity. Qed.

(** C7, as the code has it.  Every call of [eval] reads the flag once, at
    its top and before anything else.  When the flag is found set (the
    source tests that it is greater than zero) the call throws the
    interrupt error of the source, whatever the expression and the
    environment, and the state only counts that one read; when it is not,
    the call goes on to the dispatch on the head.  In a map over a lambda
    of one parameter the body is evaluated once per element, so when the
    elements [done] have been mapped and the flag is then found set, the
    map throws the interrupt error at the next element [x], and the
    elements after it are not mapped. *)
Theorem eval_polls_interrupt_flag (fuel : nat) :
  (forall (e : Expression) (st : State),
     (global_status_flag (st_polls st) > 0)%Z ->
     eval (S fuel) e st = Throw "Error: interpreter kernal interupted" (tick st)) /\
  (forall (e : Expression) (st : State),
     (global_status_flag (st_polls st) <= 0)%Z ->
     eval (S fuel) e st = dispatch (eval fuel) e (tick st)) /\
  (forall (mapform t0 t1 : Expression) (stm : State)
      (template body x list_evaled : Expression) (done rest acc1 : list Expression)
      (st0 st1 : State),
     (global_status_flag (st_polls stm) <= 0)%Z ->
     asSymbol (m_head mapform) = "map" ->
     m_tail mapform = [t0; t1] ->
     isLambda (get_exp (st_env stm) (m_head t0)) = true ->
     eval (S fuel) t1 (tick stm) = Val list_evaled st0 ->
     isList list_evaled = true ->
     m_tail list_evaled = (done ++ x :: rest)%list ->
     map_loop (eval (S fuel)) (m_head t0) done [] st0 = Val acc1 st1 ->
     isLambda (get_exp (st_env st1) (m_head t0)) = true ->
     m_tail (get_exp (st_env st1) (m_head t0)) = [template; body] ->
     tailLength template = 1 ->
     (global_status_flag (st_polls st1) > 0)%Z ->
     eval (S (S fuel)) mapform stm
     = Throw "Error: interpreter kernal interupted" (tick st1)).
Proof.
  split; [|split].
  - intros e st Hflag. rewrite eval_unfold. apply eval_body_interrupted, Hflag.
  - intros e st Hflag. apply eval_clear, Hflag.
  - intros mapform t0 t1 stm template body x list_evaled done rest acc1 st0 st1
      Hclear Hname Hform Hop Hlist HisList Helems Hdone Hlam Htail Harity Hflag1.
    rewrite (eval_clear _ _ _ Hclear), dispatch_map by (try rewrite Hform; done).
    unfold handle_map. rewrite Hform. unfold bind at 1. unfold get_env at 1.
    cbn [tick st_env]. rewrite Hop. cbn [negb andb].
    unfold bind at 1.
    change {| st_env := st_env stm; st_polls := S (st_polls stm) |} with (tick stm).
    rewrite Hlist, HisList. cbn [negb].
    unfold bind at 1. rewrite Helems.
    rewrite (map_loop_app _ _ _ _ _ _ _ _ Hdone).
    cbn [map_loop]. unfold bind at 1.
    rewrite (apply_lambda _ _ _ _ template body Hlam Htail) by (rewrite Harity; reflexivity).
    unfold in_scope. rewrite eval_unfold, eval_body_interrupted by exact Hflag1.
    reflexivity.
Qed.

(** ** Lambda application *)

Lemma shadow_params_other (scope : Environment) (params args : list Expression) (s : string) :
  s ∉ param_names params ->
  shadow_params scope params args !! s = scope !! s.
Proof.
  revert scope args. induction params as [|p params IH]; intros scope args Hs; [reflexivity|].
  destruct args as [|a args]; [reflexivity|].
  cbn [shadow_params]. unfold param_names in Hs. rewrite fmap_cons in Hs.
  apply not_elem_of_cons in Hs as [Hne Hs].
  rewrite IH by exact Hs. unfold shadowing_helper.
  rewrite lookup_insert_ne by congruence. reflexivity.
Qed.

(** A parameter whose name no later parameter repeats is bound to the
    argument at its position. *)
Lemma shadow_params_bound (scope : Environment) (params args : list Expression)
    (i : nat) (p a : Expression) :
  params !! i = Some p ->
  args !! i = Some a ->
  (forall j q, i < j -> params !! j = Some q -> asSymbol (m_head q) <> asSymbol (m_head p)) ->
  shadow_params scope params args !! asSymbol (m_head p) = Some (BoundExp a).
Proof.
  revert scope args i. induction params as [|q0 params IH]; intros scope args i Hp Ha Hlater.
  - destruct i; discriminate.
  - destruct args as [|b args]; [destruct i; discriminate|].
    cbn [shadow_params]. destruct i as [|i].
    + cbn in Hp, Ha. injection Hp as ->. injection Ha as ->.
      rewrite shadow_params_other.
      * unfold shadowing_helper. apply lookup_insert_eq.
      * unfold param_names. intros Hin.
        apply list_elem_of_fmap in Hin as (q & Hq & Hin).
        apply list_elem_of_lookup in Hin as (j & Hj).
        apply (Hlater (S j) q); [lia|exact Hj|congruence].
    + cbn in Hp, Ha. eapply IH; [eassumption|eassumption|].
      intros j q Hij Hq. apply (Hlater (S j) q); [lia|exact Hq].
Qed.

Lemma apply_restores_env ev (op : Atom) (args : list Expression) (st : State) :
  match apply ev op args st with
  | Val _ st' | Throw _ st' => st_env st' = st_env st
  | Fault | NoFuel => True
  end.
Proof.
  unfold apply, bind, get_env.
  destruct (isLambda (get_exp (st_env st) op)).
  - destruct (m_tail (get_exp (st_env st) op)) as [|arg_template rest]; [exact I|].
    destruct (negb _); [reflexivity|].
    destruct (last _) as [body|]; [|exact I].
    unfold in_scope. destruct (ev body _); done.
  - destruct (negb (isSymbol op)); [reflexivity|].
    destruct (negb (is_proc (st_env st) op)); [reflexivity|].
    destruct (get_proc (st_env st) op) as [proc|]; [|exact I].
    unfold call_proc. destruct (proc args); reflexivity.
Qed.

(** A define of a name that is not refused binds the value of its second
    child. *)
Lemma define_binds (fuel : nat) (e target value : Expression) (st : State)
    (v : Expression) (st' : State) :
  (global_status_flag (st_polls st) <= 0)%Z ->
  asSymbol (m_head e) = "define" ->
  m_tail e = [target; value] ->
  isSymbol (m_head target) = true ->
  ~ In (asSymbol (m_head target)) ["define"; "begin"; "lambda"; "list"; "pi"; "e"; "I"] ->
  is_proc (st_env st) (m_head target) = false ->
  eval fuel value (tick st) = Val v st' ->
  eval (S fuel) e st
  = Val v (mkState (add_exp (st_env st') (m_head target) v) (st_polls st')).
Proof.
  intros Hflag Hname Htail Hsym Hfree Hproc Hvalue.
  rewrite (eval_clear _ _ _ Hflag), dispatch_define by (try rewrite Htail; done).
  unfold handle_define. rewrite Htail, Hsym. cbn [negb].
  unfold bind at 1. unfold get_env at 1. cbn [tick st_env]. rewrite Hproc.
  cbn in Hfree.
  repeat match goal with
         | |- context [String.eqb ?a ?b] =>
             destruct (String.eqb_spec a b) as [Heq|_]; [exfalso; rewrite Heq in Hfree; tauto|]
         end.
  cbn [orb]. unfold bind, get_env, put_env, ret.
  change {| st_env := st_env st; st_polls := S (st_polls st) |} with (tick st).
  rewrite Hvalue. reflexivity.
Qed.

(** A lambda form yields the closure: the template and the unevaluated
    body. *)
Lemma eval_lambda_form (fuel : nat) (e params body : Expression) (more : list Expression)
    (st : State) :
  (global_status_flag (st_polls st) <= 0)%Z ->
  asSymbol (m_head e) = "lambda" ->
  m_tail e = params :: body :: more ->
  eval (S fuel) e st
  = Val (Expression_lambda (Expression_atom (m_head params) :: m_tail params) body) (tick st).
Proof.
  intros Hflag Hname Htail.
  rewrite (eval_clear _ _ _ Hflag), (dispatch_special _ _ _ Hname) by (rewrite Htail; done).
  cbn [String.eqb Ascii.eqb Bool.eqb]. unfold handle_lambda. rewrite Htail. reflexivity.
Qed.

Lemma scoping_program_runs (fuel : nat) (env0 : Environment) (polls : nat) :
  quiet global_status_flag ->
  is_proc env0 (SymbolKind "x") = false ->
  is_proc env0 (SymbolKind "f") = false ->
  exists st',
    eval (3 + fuel) scoping_program (mkState env0 polls) = Val (number 2) st' /\
    st_env st' !! "x" = Some (BoundExp (number 1)).
Proof.
  intros Hquiet Hx Hf.
  set (closure := Expression_lambda [symbol "x"] (symbol "x")).
  set (env1 := <["x" := BoundExp (number 1)]> env0 : Environment).
  set (env2 := <["f" := BoundExp closure]> env1 : Environment).
  assert (Hget : get_exp env2 (SymbolKind "f") = closure).
  { unfold get_exp, env2. cbn. rewrite lookup_insert_eq. reflexivity. }
  exists (mkState env2 (8 + polls)). split.
  - change (3 + fuel) with (S (2 + fuel)).
    rewrite eval_clear, dispatch_begin by (try apply Hquiet; done).
    unfold handle_begin.
    apply (begin_loop_in_order _ _ _ [number 1; closure; number 2]).
    apply in_order_cons with (st1 := mkState env1 (3 + polls));
      [|apply in_order_cons with (st1 := mkState env2 (5 + polls));
        [|apply in_order_cons with (st1 := mkState env2 (8 + polls)); [|constructor]]].
    + change (2 + fuel) with (S (1 + fuel)).
      etransitivity; [|reflexivity].
      apply (define_binds _ _ (symbol "x") (number 1) _ (number 1)
               (mkState env0 (3 + polls)));
        first [ apply Hquiet | exact Hx | apply eval_number, Hquiet
              | reflexivity | (cbn; intuition discriminate) ].
    + change (2 + fuel) with (S (1 + fuel)).
      etransitivity; [|reflexivity].
      apply (define_binds _ _ (symbol "f") (form "lambda" [symbol "x"; symbol "x"])
               _ closure (mkState env1 (5 + polls)));
        try first [ apply Hquiet | reflexivity | (cbn; intuition discriminate) ].
      * cbn [st_env]. unfold is_proc, env1 in *. cbn in *.
        rewrite lookup_insert_ne by discriminate. exact Hf.
      * change (1 + fuel) with (S fuel).
        apply (eval_lambda_form _ _ (symbol "x") (symbol "x") []);
          first [ apply Hquiet | reflexivity ].
    + change (2 + fuel) with (S (S fuel)).
      rewrite eval_clear by apply Hquiet.
      rewrite (dispatch_special _ _ "f") by done.
      cbn [String.eqb Ascii.eqb Bool.eqb m_tail m_head form eval_each].
      unfold bind at 1. unfold bind at 1. rewrite eval_number by apply Hquiet.
      cbn [ret bind].
      rewrite (apply_lambda _ _ _ _ (Expression_list [symbol "x"]) (symbol "x"));
        cbn [st_env tick]; try rewrite Hget; try reflexivity.
      unfold in_scope. cbn [st_polls st_env tick m_tail Expression_list shadow_params].
      rewrite eval_clear by apply Hquiet.
      rewrite dispatch_lookup by first [reflexivity | (cbn; discriminate)].
      rewrite handle_lookup_cases.
      unfold is_exp, get_exp, shadowing_helper. cbn. rewrite lookup_insert_eq. reflexivity.
  - unfold env2, env1. cbn. rewrite lookup_insert_ne by discriminate.
    apply lookup_insert_eq.
Qed.

(** C2.  Applying a symbol bound to a lambda to as many arguments as the
    template has parameters evaluates the body in a copy of the caller's
    environment in which each parameter is bound to the argument at its
    position and every other symbol is as in the caller; the caller's
    environment after the application is the one before it.  The scoping
    program evaluates to 2 and leaves x bound to 1. *)
Theorem lambda_application_scoping (fuel : nat) (op : Atom) (args : list Expression)
    (st : State) (template body : Expression) (env0 : Environment) (polls : nat) :
  quiet global_status_flag ->
  isLambda (get_exp (st_env st) op) = true ->
  m_tail (get_exp (st_env st) op) = [template; body] ->
  length args = tailLength template ->
  is_proc env0 (SymbolKind "x") = false ->
  is_proc env0 (SymbolKind "f") = false ->
  let inner_scope := shadow_params (st_env st) (m_tail template) args in
  apply (eval fuel) op args st = in_scope inner_scope (eval fuel body) st /\
  (forall i p a, m_tail template !! i = Some p -> args !! i = Some a ->
     (forall j q, i < j -> m_tail template !! j = Some q ->
        asSymbol (m_head q) <> asSymbol (m_head p)) ->
     inner_scope !! asSymbol (m_head p) = Some (BoundExp a)) /\
  (forall s, s ∉ param_names (m_tail template) -> inner_scope !! s = st_env st !! s) /\
  (forall v st', apply (eval fuel) op args st = Val v st' -> st_env st' = st_env st) /\
  (forall what st', apply (eval fuel) op args st = Throw what st' -> st_env st' = st_env st) /\
  (exists st',
     eval (3 + fuel) scoping_program (mkState env0 polls) = Val (number 2) st' /\
     st_env st' !! "x" = Some (BoundExp (number 1))).
Proof.
  intros Hquiet Hlam Htail Hlen Hx Hf inner_scope.
  split; [|split; [|split; [|split; [|split]]]].
  - apply apply_lambda; assumption.
  - intros i p a Hp Ha Hlater. eapply shadow_params_bound; eassumption.
  - intros s Hs. apply shadow_params_other, Hs.
  - intros v st' H. pose proof (apply_restores_env (eval fuel) op args st) as K.
    rewrite H in K. exact K.
  - intros what st' H. pose proof (apply_restores_env (eval fuel) op args st) as K.
    rewrite H in K. exact K.
  - apply scoping_program_runs; assumption.
Qed.

(** ** Properties of expressions *)

Lemma dispatch_set_property ev (e : Expression) :
  asSymbol (m_head e) = "set-property" ->
  m_tail e <> [] ->
  dispatch ev e = handle_set_property stream_double ev e.
Proof. intros Hname Htail. rewrite (dispatch_special _ _ _ Hname Htail). reflexivity. Qed.

Lemma dispatch_get_property ev (e : Expression) :
  asSymbol (m_head e) = "get-property" ->
  m_tail e <> [] ->
  dispatch ev e = handle_get_property stream_double ev e.
Proof. intros Hname Htail. rewrite (dispatch_special _ _ _ Hname Htail). reflexivity. Qed.

Lemma with_property_lookup (target : Expression) (key : string) (value : Expression) :
  m_properties (with_property target key value) !! key = Some value /\
  (forall other, other <> key ->
     m_properties (with_property target key value) !! other = m_properties target !! other) /\
  m_head (with_property target key value) = m_head target /\
  m_tail (with_property target key value) = m_tail target /\
  m_type (with_property target key value) = m_type target.
Proof.
  unfold with_property, assignProperty, eraseProperty.
  destruct (m_properties target !! key) eqn:Hold; cbn [m_properties m_head m_tail m_type].
  - split; [apply lookup_insert_eq|]. split; [|auto].
    intros other Hne. rewrite lookup_insert_ne, lookup_delete_ne by congruence. reflexivity.
  - split; [apply lookup_insert_eq|]. split; [|auto].
    intros other Hne. rewrite lookup_insert_ne by congruence. reflexivity.
Qed.

Lemma eval_set_property (fuel : nat) (e k v t : Expression) (st : State)
    (rt : Expression) (st1 : State) (rv : Expression) (st2 : State) :
  (global_status_flag (st_polls st) <= 0)%Z ->
  asSymbol (m_head e) = "set-property" ->
  m_tail e = [k; v; t] ->
  isString (m_head k) = true ->
  eval fuel t (tick st) = Val rt st1 ->
  eval fuel v st1 = Val rv st2 ->
  eval (S fuel) e st
  = Val (with_property rt (asString stream_double (m_head k)) rv) st2.
Proof.
  intros Hflag Hname Htail Hk Ht Hv.
  rewrite (eval_clear _ _ _ Hflag), dispatch_set_property by (try rewrite Htail; done).
  unfold handle_set_property. rewrite Htail, Hk.
  unfold bind. rewrite Ht, Hv. reflexivity.
Qed.

Lemma eval_get_property (fuel : nat) (e k t : Expression) (st : State)
    (rt : Expression) (st1 : State) :
  (global_status_flag (st_polls st) <= 0)%Z ->
  asSymbol (m_head e) = "get-property" ->
  m_tail e = [k; t] ->
  isString (m_head k) = true ->
  eval fuel t (tick st) = Val rt st1 ->
  eval (S fuel) e st = Val (getProperty rt (asString stream_double (m_head k))) st1.
Proof.
  intros Hflag Hname Htail Hk Ht.
  rewrite (eval_clear _ _ _ Hflag), dispatch_get_property by (try rewrite Htail; done).
  unfold handle_get_property. rewrite Htail.
  unfold bind. rewrite Ht, Hk. reflexivity.
Qed.

(** C5.  Reading under [k] what set-property has just stored under [k]
    gives the value stored, whatever the target held under [k] before; the
    other properties, the head, the tail and the kind of the target are
    untouched.  Reading a key under which the evaluated target has no
    property gives the unset [Expression()]. *)
Theorem get_property_of_set_property (fuel : nat)
    (getform setform k v t : Expression) (st : State)
    (rt : Expression) (st1 : State) (rv : Expression) (st2 : State)
    (getform' k' t' : Expression) (rt' : Expression) (st' : State) :
  quiet global_status_flag ->
  asSymbol (m_head getform) = "get-property" ->
  m_tail getform = [k; setform] ->
  asSymbol (m_head setform) = "set-property" ->
  m_tail setform = [k; v; t] ->
  isString (m_head k) = true ->
  eval fuel t (tick (tick st)) = Val rt st1 ->
  eval fuel v st1 = Val rv st2 ->
  asSymbol (m_head getform') = "get-property" ->
  m_tail getform' = [k'; t'] ->
  isString (m_head k') = true ->
  eval fuel t' (tick st) = Val rt' st' ->
  m_properties rt' !! asString stream_double (m_head k') = None ->
  eval (S (S fuel)) getform st = Val rv st2 /\
  (exists stored,
     eval (S fuel) setform (tick st) = Val stored st2 /\
     m_properties stored !! asString stream_double (m_head k) = Some rv /\
     (forall other, other <> asString stream_double (m_head k) ->
        m_properties stored !! other = m_properties rt !! other) /\
     m_head stored = m_head rt /\ m_tail stored = m_tail rt /\ m_type stored = m_type rt) /\
  eval (S fuel) getform' st = Val Expression_default st'.
Proof.
  intros Hquiet Hget Hgtail Hset Hstail Hk Ht Hv Hget' Hgtail' Hk' Ht' Hnone.
  pose proof (eval_set_property fuel setform k v t (tick st) rt st1 rv st2
                (Hquiet _) Hset Hstail Hk Ht Hv) as Hstored.
  pose proof (with_property_lookup rt (asString stream_double (m_head k)) rv)
    as (Hsame & Hother & Hh & Htl & Hty).
  split; [|split].
  - rewrite (eval_get_property (S fuel) getform k setform st _ st2 (Hquiet _) Hget Hgtail Hk Hstored).
    unfold getProperty. rewrite Hsame. reflexivity.
  - eexists. split; [exact Hstored|]. auto.
  - rewrite (eval_get_property fuel getform' k' t' st rt' st' (Hquiet _) Hget' Hgtail' Hk' Ht').
    unfold getProperty. rewrite Hnone. reflexivity.
Qed.

(** ** Plots *)






Section PlotPrimitives.

(** The environment binds make-point and make-line to built-in procedures:
    the first returns [point x y] for the numbers [x] and [y], the second
    returns [line a b] for two such points, tagged as a line. *)
Variable ev : Expression -> M Expression.
Variable env : Environment.
Variables point_proc line_proc : Procedure.
Variable point : float -> float -> Expression.
Variable line : Expression -> Expression -> Expression.

Hypothesis env_point : env !! "make-point" = Some (BuiltinProc point_proc).
Hypothesis env_line : env !! "make-line" = Some (BuiltinProc line_proc).
Hypothesis point_returns : forall x y, point_proc [number x; number y] = Returns (point x y).
Hypothesis line_returns :
  forall x1 y1 x2 y2,
    line_proc [point x1 y1; point x2 y2] = Returns (line (point x1 y1) (point x2 y2)).

Lemma apply_builtin (name : string) (proc : Procedure) (args : list Expression) (polls : nat) :
  isSymbol (SymbolKind name) = true ->
  asSymbol (SymbolKind name) = name ->
  env !! name = Some (BuiltinProc proc) ->
  apply ev (SymbolKind name) args (mkState env polls)
  = call_proc proc args (mkState env polls).
Proof.
  intros Hsym Hname Hproc. unfold apply, bind, get_env. cbn [st_env].
  unfold get_exp, is_proc, get_proc. rewrite Hsym, Hname, Hproc. reflexivity.
Qed.

Lemma bind_make_point {B} (x y : float) (k : Expression -> M B) (polls : nat) :
  bind (make_point ev x y) k (mkState env polls) = k (point x y) (mkState env polls).
Proof.
  unfold bind, make_point. rewrite (apply_builtin _ point_proc) by done.
  unfold call_proc. rewrite point_returns. reflexivity.
Qed.

Lemma bind_make_line {B} (x1 y1 x2 y2 : float) (k : Expression -> M B) (polls : nat) :
  bind (make_line ev (point x1 y1) (point x2 y2)) k (mkState env polls)
  = k (line (point x1 y1) (point x2 y2)) (mkState env polls).
Proof.
  unfold bind, make_line. rewrite (apply_builtin _ line_proc) by done.
  unfold call_proc. rewrite line_returns. reflexivity.
Qed.



End PlotPrimitives.


End EvalFacts.

(** * Sample runs *)

Lemma flag_clear_quiet : quiet flag_clear.
Proof. intros k. unfold flag_clear. lia. Defined.

(** The string literal [list] evaluated in [plot_env]. *)
Lemma eval_string_literal_list_witness :
  eval flag_clear no_digits no_digits 1 (string_literal "list") (mkState plot_env 0)
  = Val (Expression_list []) (mkState plot_env 1).
Proof.
  refine (proj1 (proj2 (proj2
            (eval_string_literal_list flag_clear no_digits no_digits 0
               (mkState plot_env 0) _)))).
  apply flag_clear_quiet.
Defined.

(** (define map 3) evaluated in [plot_env]. *)
Lemma define_rebinds_special_form_witness :
  eval flag_clear no_digits no_digits 2 (form "define" [symbol "map"; number 3])
    (mkState plot_env 0)
  = Val (number 3) (mkState (<["map" := BoundExp (number 3)]> plot_env) 2).
Proof.
  apply (define_rebinds_special_form flag_clear no_digits no_digits 0 "map"
           (mkState plot_env 0)).
  - exact flag_clear_quiet.
  - cbn. tauto.
  - vm_compute. reflexivity.
Defined.

(** (f 2) applied in [scoping_env], and the scoping program run in
    [plot_env]. *)
Lemma lambda_application_scoping_witness :
  apply (eval flag_clear no_digits no_digits 1) (SymbolKind "f") [number 2]
    (mkState scoping_env 0)
  = Val (number 2) (mkState scoping_env 1) /\
  exists st',
    eval flag_clear no_digits no_digits 3 scoping_program (mkState plot_env 0)
    = Val (number 2) st' /\
    st_env st' !! "x" = Some (BoundExp (number 1)).
Proof.
  destruct (lambda_application_scoping flag_clear no_digits no_digits 1
              (SymbolKind "f") [number 2] (mkState scoping_env 0)
              (Expression_list [symbol "x"]) (symbol "x") plot_env 0)
    as (Happly & _ & _ & _ & _ & Hprogram).
  - exact flag_clear_quiet.
  - vm_compute. reflexivity.
  - vm_compute. reflexivity.
  - reflexivity.
  - vm_compute. reflexivity.
  - vm_compute. reflexivity.
  - split; [|exact Hprogram].
    rewrite Happly. vm_compute. reflexivity.
Defined.

(** (begin (define a 3) a) evaluated in [plot_env]. *)
Lemma eval_begin_in_order_witness :
  eval flag_clear no_digits no_digits 3
    (form "begin" [form "define" [symbol "a"; number 3]; symbol "a"])
    (mkState plot_env 0)
  = Val (number 3) (mkState (<["a" := BoundExp (number 3)]> plot_env) 4).
Proof.
  refine (proj1 (eval_begin_in_order flag_clear no_digits no_digits 2
                   (form "begin" [form "define" [symbol "a"; number 3]; symbol "a"])
                   (mkState plot_env 0) [number 3; number 3]
                   (mkState (<["a" := BoundExp (number 3)]> plot_env) 4) _ _ _ _)).
  - apply flag_clear_quiet.
  - reflexivity.
  - discriminate.
  - eapply in_order_cons; [vm_compute; reflexivity|].
    eapply in_order_cons; [vm_compute; reflexivity|].
    constructor.
Defined.

(** (begin (define a 3) b) evaluated in [plot_env]: the error of b comes
    out, and a stays bound to 3. *)
Lemma begin_failure_keeps_bindings_witness :
  eval flag_clear no_digits no_digits 3 failing_begin (mkState plot_env 0)
  = Throw "Error during handle lookup: unknown symbol b"
          (mkState (<["a" := BoundExp (number 3)]> plot_env) 4).
Proof.
  refine (proj1 (begin_failure_keeps_bindings flag_clear no_digits no_digits 2
                   failing_begin (mkState plot_env 0)
                   [form "define" [symbol "a"; number 3]] (symbol "b") []
                   [number 3]
                   (mkState (<["a" := BoundExp (number 3)]> plot_env) 3)
                   "Error during handle lookup: unknown symbol b"
                   (mkState (<["a" := BoundExp (number 3)]> plot_env) 4) _ _ _ _ _)).
  - apply flag_clear_quiet.
  - reflexivity.
  - reflexivity.
  - eapply in_order_cons; [vm_compute; reflexivity|]. constructor.
  - vm_compute. reflexivity.
Defined.

(** (map f (list 1 2 3)) with the flag set from the first read on, and with
    the flag set after the first element. *)
Lemma eval_polls_interrupt_flag_witness :
  eval flag_set no_digits no_digits 3 map_f_123 (mkState scoping_env 0)
  = Throw "Error: interpreter kernal interupted" (mkState scoping_env 1) /\
  eval flag_set_at_6 no_digits no_digits 3 map_f_123 (mkState scoping_env 0)
  = Throw "Error: interpreter kernal interupted" (mkState scoping_env 7).
Proof.
  split.
  - apply (proj1 (eval_polls_interrupt_flag flag_set no_digits no_digits 2)
             map_f_123 (mkState scoping_env 0)).
    unfold flag_set. lia.
  - apply (proj2 (proj2 (eval_polls_interrupt_flag flag_set_at_6 no_digits no_digits 1))
             map_f_123 (symbol "f") (form "list" [number 1; number 2; number 3])
             (mkState scoping_env 0)
             (Expression_list [symbol "x"]) (symbol "x") (number 2)
             (Expression_list [number 1; number 2; number 3])
             [number 1] [number 3] [number 1]
             (mkState scoping_env 5) (mkState scoping_env 6)).
    + unfold flag_set_at_6. cbn. lia.
    + reflexivity.
    + reflexivity.
    + vm_compute. reflexivity.
    + vm_compute. reflexivity.
    + reflexivity.
    + reflexivity.
    + vm_compute. reflexivity.
    + vm_compute. reflexivity.
    + vm_compute. reflexivity.
    + reflexivity.
    + unfold flag_set_at_6. cbn. lia.
Defined.

(** (get-property "key" (set-property "key" 42 (list 1 2))) and
    (get-property "other" (list 1 2)) evaluated in [plot_env]. *)
Lemma get_property_of_set_property_witness :
  eval flag_clear no_digits no_digits 4 get_key_of_set (mkState plot_env 0)
  = Val (number 42) (mkState plot_env 6) /\
  eval flag_clear no_digits no_digits 3 get_other (mkState plot_env 0)
  = Val Expression_default (mkState plot_env 4).
Proof.
  destruct (get_property_of_set_property flag_clear no_digits no_digits 2
              get_key_of_set set_key_42 (string_literal "key") (number 42) list_1_2
              (mkState plot_env 0)
              (Expression_list [number 1; number 2]) (mkState plot_env 5)
              (number 42) (mkState plot_env 6)
              get_other (string_literal "other") list_1_2
              (Expression_list [number 1; number 2]) (mkState plot_env 4))
    as (Hget & _ & Hnone);
    try exact flag_clear_quiet; try (vm_compute; reflexivity).
  split; assumption.
Defined.

Lemma plot_env_points (x y : float) :
  make_point_proc [number x; number y] = Returns (point_of x y).
Proof. reflexivity. Defined.

Lemma plot_env_lines (x1 y1 x2 y2 : float) :
  make_line_proc [point_of x1 y1; point_of x2 y2]
  = Returns (line_of (point_of x1 y1) (point_of x2 y2)).
Proof. vm_compute. reflexivity. Defined.

Lemma plot_env_lines_tagged (x1 y1 x2 y2 : float) :
  checkProperty (line_of (point_of x1 y1) (point_of x2 y2)) "object-name" "line" = true.
Proof. vm_compute. reflexivity. Defined.


(** * Where the code departs from the specification *)

(** C4.  A begin form without children fails: it is a lookup of the symbol
    begin, which is not bound. *)
Lemma begin_without_children_fails :
  eval flag_clear no_digits no_digits 1 (form "begin" []) (mkState plot_env 0)
  = Throw "Error during handle lookup: unknown symbol begin" (mkState plot_env 1) /\
  forall fuel v st',
    eval flag_clear no_digits no_digits fuel (form "begin" []) (mkState plot_env 0)
    <> Val v st'.
Proof.
  split; [vm_compute; reflexivity|].
  intros [|fuel] v st'; [discriminate|].
  rewrite eval_clear by apply flag_clear_quiet.
  rewrite dispatch_lookup by first [reflexivity | (cbn; discriminate)].
  vm_compute. discriminate.
Qed.


(** C7.  With the flag at 1 the error thrown carries the text of the source,
    which is not the text of the claim.  In a map over a built-in procedure
    no element is evaluated by a call of [eval]: with the flag set from the
    moment the list has been evaluated, after five reads, all three
    elements are still mapped and the map returns its value. *)
Lemma interrupt_message_and_builtin_map :
  eval flag_set no_digits no_digits 1 (number 1) (mkState plot_env 0)
  = Throw "Error: interpreter kernal interupted" (mkState plot_env 1) /\
  "Error: interpreter kernal interupted" <> "interpreter kernel interrupted" /\
  eval flag_set_at_5 no_digits no_digits 2 (form "list" [number 1; number 2; number 3])
    (mkState builtin_env 1)
  = Val (Expression_list [number 1; number 2; number 3]) (mkState builtin_env 5) /\
  (forall k, (5 <= k)%nat -> flag_set_at_5 k = 1%Z) /\
  eval flag_set_at_5 no_digits no_digits 3 map_list_123 (mkState builtin_env 0)
  = Val (Expression_list
           [Expression_list [number 1]; Expression_list [number 2];
            Expression_list [number 3]])
        (mkState builtin_env 5).
Proof.
  split; [vm_compute; reflexivity|].
  split; [discriminate|].
  split; [vm_compute; reflexivity|].
  split.
  { intros k Hk. unfold flag_set_at_5.
    destruct (Nat.leb_spec 5 k) as [_|Hlt]; [reflexivity | lia]. }
  vm_compute. reflexivity.
Qed.

(** * Further properties of the code *)

(** ** Atoms *)

(** X1.  Atoms that compare equal have the same type: a number is never
    equal to a complex, a symbol never to a string, and the unset atom only
    to itself.  Two atoms holding text are equal exactly when the texts are
    the same, quotes included. *)
Theorem Atom_eq_same_type (a b : Atom) :
  Atom_eq a b = true ->
  isNone a = isNone b /\
  isNumber a = isNumber b /\
  isComplex a = isComplex b /\
  isSymbol a = isSymbol b /\
  isString a = isString b /\
  (forall s, a = SymbolKind s -> b = SymbolKind s).
Proof.
  intros H.
  destruct a as [|x|s|r i], b as [|y|t|r' i']; cbn in H; try discriminate;
    repeat split; try reflexivity; try (intros ? ?; discriminate).
  - apply String.eqb_eq in H. subst. reflexivity.
  - apply String.eqb_eq in H. subst. reflexivity.
  - intros s0 Hs. injection Hs as <-. apply String.eqb_eq in H. subst. reflexivity.
Qed.

(** X2.  Of the five type tests of an atom exactly one holds, and the atom
    tells which: the unset atom is none, a number is a number, a complex a
    complex; an atom holding a text is a string when the text starts with a
    double quote, whether or not a second quote closes it, and a symbol for
    every other text, the empty one included. *)
Theorem Atom_type_tests_partition (a : Atom) :
  In (isNone a, isNumber a, isComplex a, isSymbol a, isString a)
     [(true, false, false, false, false);
      (false, true, false, false, false);
      (false, false, true, false, false);
      (false, false, false, true, false);
      (false, false, false, false, true)] /\
  (isNone a = true <-> a = NoneKind) /\
  (isNumber a = true <-> exists v, a = NumberKind v) /\
  (isComplex a = true <-> exists re im, a = ComplexKind re im) /\
  (isString a = true <-> exists rest, a = SymbolKind (String dquote rest)) /\
  (isSymbol a = true <->
     exists text, a = SymbolKind text /\ forall rest, text <> String dquote rest).
Proof.
  assert (Hfirst : forall text,
            Ascii.eqb (first_char text) dquote = true <->
            exists rest, text = String dquote rest).
  { intros [|c rest]; cbn [first_char].
    - split; [discriminate | intros (r & Hr); discriminate].
    - rewrite Ascii.eqb_eq. split.
      + intros ->. eauto.
      + intros (r & Hr). injection Hr as -> _. reflexivity. }
  split.
  { destruct a as [|x|s|r i]; cbn [isNone isNumber isComplex isSymbol isString In];
      [auto | auto | | auto].
    destruct (Ascii.eqb (first_char s) dquote); cbn; auto 10. }
  split; [destruct a; cbn; split; (discriminate || reflexivity || done)|].
  split; [destruct a; cbn; split;
            first [discriminate | intros (v & Hv); discriminate | eauto]|].
  split; [destruct a; cbn; split;
            first [discriminate | intros (r & i & Hv); discriminate | eauto]|].
  split.
  - destruct a as [|x|s|r i]; cbn [isString];
      try (split; [discriminate | intros (rest & Hr); discriminate]).
    rewrite Hfirst. split.
    + intros (rest & ->). eauto.
    + intros (rest & Hr). injection Hr as ->. eauto.
  - destruct a as [|x|s|r i]; cbn [isSymbol];
      try (split; [discriminate | intros (text & Hr & _); discriminate]).
    rewrite negb_true_iff, <- not_true_iff_false, Hfirst. split.
    + intros Hnot. exists s. split; [reflexivity|].
      intros rest Hrest. apply Hnot. eauto.
    + intros (text & Htext & Hnot) (rest & Hrest).
      injection Htext as <-. exact (Hnot rest Hrest).
Qed.

Lemma remove_quotes_clean (s : string) :
  forall c, In c (list_ascii_of_string (remove_quotes s)) -> c <> dquote.
Proof.
  induction s as [|c0 s IH]; intros c Hc; cbn in Hc; [contradiction|].
  destruct (Ascii.eqb_spec c0 dquote) as [->|Hne]; [apply IH, Hc|].
  cbn in Hc. destruct Hc as [<-|Hc]; [exact Hne | apply IH, Hc].
Qed.

Lemma remove_quotes_app (s t : string) :
  remove_quotes (s ++ t) = remove_quotes s ++ remove_quotes t.
Proof.
  induction s as [|c s IH]; [reflexivity|].
  change (String c s ++ t) with (String c (s ++ t)). cbn [remove_quotes].
  destruct (Ascii.eqb c dquote); rewrite IH; reflexivity.
Qed.

Lemma remove_quotes_idem (s : string) : remove_quotes (remove_quotes s) = remove_quotes s.
Proof.
  induction s as [|c s IH]; cbn; [reflexivity|].
  destruct (Ascii.eqb c dquote) eqn:Hc; [exact IH|].
  cbn. rewrite Hc, IH. reflexivity.
Qed.

(** X3.  [asSymbol] returns a text without any double quote, and gives the
    string literal and the symbol of the same text the same answer: after
    [asSymbol] the two can no longer be told apart. *)
Theorem asSymbol_drops_quotes (a : Atom) (s : string) :
  (forall c, In c (list_ascii_of_string (asSymbol a)) -> c <> dquote) /\
  remove_quotes (asSymbol a) = asSymbol a /\
  asSymbol (SymbolKind (quoted s)) = asSymbol (SymbolKind s) /\
  isString (SymbolKind (quoted s)) = true.
Proof.
  split; [|split; [|split]].
  - destruct a as [|x|t|r i]; cbn; try (intros c []). apply remove_quotes_clean.
  - destruct a as [|x|t|r i]; cbn; try reflexivity. apply remove_quotes_idem.
  - unfold quoted.
    change (String dquote s ++ String dquote EmptyString)
      with (String dquote (s ++ String dquote EmptyString)).
    cbn [asSymbol remove_quotes].
    change (Ascii.eqb dquote dquote) with true. cbn match.
    rewrite remove_quotes_app.
    change (remove_quotes (String dquote EmptyString)) with EmptyString.
    induction (remove_quotes s) as [|c t IH]; [reflexivity|].
    change (String c t ++ EmptyString) with (String c (t ++ EmptyString)).
    rewrite IH. reflexivity.
  - reflexivity.
Qed.

(** X29.  The two numeric conversions agree and never fail: [asNumber] is
    the real part of [asComplex] for every atom, a number converts to a
    complex with imaginary part 0, and an atom that is neither a number nor
    a complex converts to 0 instead of raising an error. *)
Theorem asNumber_is_real_part (a : Atom) :
  asNumber a = fst (asComplex a) /\
  (isComplex a = false -> snd (asComplex a) = 0%float) /\
  (isNumber a = false -> isComplex a = false ->
     asNumber a = 0%float /\ asComplex a = (0, 0)%float).
Proof.
  destruct a as [|v|s|r i]; cbn; repeat split; intros; try reflexivity; discriminate.
Qed.

(** ** Properties and plot tests of expressions *)

Lemma Expression_eq_text_atom (x : Expression) (text : string) :
  Expression_eq x (Expression_atom (SymbolKind text)) = true <->
  m_head x = SymbolKind text /\ m_tail x = [].
Proof.
  rewrite Expression_eq_unfold. cbn [m_head m_tail Expression_atom length].
  split.
  - destruct (m_head x) as [|v|s|r i]; cbn [Atom_eq andb]; try discriminate.
    destruct (String.eqb_spec s text) as [->|]; cbn [andb]; [|discriminate].
    destruct (m_tail x); [auto | discriminate].
  - intros [-> ->]. cbn. rewrite String.eqb_refl. reflexivity.
Qed.

(** X4.  [checkProperty] holds exactly when the property under the quoted
    key is a childless expression whose head is the quoted value; it is
    false when the key is missing, and true after the pair has been
    stored. *)
Theorem checkProperty_reads_quoted (e : Expression) (key value : string) :
  (checkProperty e key value = true <->
     exists x, m_properties e !! quoted key = Some x /\
               m_head x = SymbolKind (quoted value) /\ m_tail x = []) /\
  (m_properties e !! quoted key = None -> checkProperty e key value = false) /\
  checkProperty (assignProperty e (quoted key) (string_literal value)) key value = true.
Proof.
  unfold checkProperty. fold (quoted key). fold (quoted value).
  split; [|split].
  - rewrite Expression_eq_text_atom. unfold getProperty.
    destruct (m_properties e !! quoted key) as [x|].
    + split; [intros H; eauto|]. intros (y & Hy & H). injection Hy as <-. exact H.
    + split; [intros [H _]; discriminate|]. intros (y & Hy & _). discriminate.
  - intros Hnone. unfold getProperty. rewrite Hnone. reflexivity.
  - apply Expression_eq_text_atom. unfold getProperty, assignProperty.
    cbn [m_properties]. rewrite lookup_insert_eq. split; reflexivity.
Qed.

Lemma other_properties_assign_type (e : Expression) (v : Expression) :
  other_properties (assignProperty e "type" v) = other_properties e.
Proof.
  unfold other_properties, assignProperty. cbn [m_properties].
  apply map_filter_insert_not. intros y H. apply H. reflexivity.
Qed.

Lemma other_properties_erase_type (e : Expression) :
  other_properties (eraseProperty e "type") = other_properties e.
Proof.
  unfold other_properties, eraseProperty. cbn [m_properties].
  apply map_filter_delete_not. intros y _ H. apply H. reflexivity.
Qed.

(** X5.  An expression made by the plot constructor is a discrete plot
    exactly when its type is DP, and is never taken for a continuous plot:
    the loop of [isCP] skips the key [type], the only one there is.  In
    general [isCP] does not depend on the [type] property at all. *)
Theorem plot_type_tests (type : string) (data : list Expression) (e v : Expression) :
  isDP (Expression_plot type data) = (type =? "DP") /\
  isCP (Expression_plot type data) = false /\
  isCP (assignProperty e "type" v) = isCP e /\
  isCP (eraseProperty e "type") = isCP e.
Proof.
  split; [|split; [|split]].
  - unfold isDP, Expression_plot. cbn [m_properties].
    rewrite lookup_singleton_eq. rewrite Expression_eq_unfold. cbn.
    destruct (type =? "DP"); reflexivity.
  - unfold isCP, other_properties, Expression_plot. cbn [m_properties].
    rewrite map_filter_singleton_False by (intros H; apply H; reflexivity).
    rewrite map_to_list_empty. reflexivity.
  - unfold isCP. rewrite other_properties_assign_type. reflexivity.
  - unfold isCP. rewrite other_properties_erase_type. reflexivity.
Qed.

(** X6.  [setPointSize] and [setLineThickness] change the property only
    where it exists: read back with [getNumericalProperty], the value is
    the one set when the key was there, and still -1 when it was not. *)
Theorem numerical_property_round_trip (e : Expression) (val : float) :
  getNumericalProperty (setPointSize e val) (quoted "size")
  = match m_properties e !! quoted "size" with
    | Some _ => val
    | None => (-1)%float
    end /\
  getNumericalProperty (setLineThickness e val) (quoted "thickness")
  = match m_properties e !! quoted "thickness" with
    | Some _ => val
    | None => (-1)%float
    end /\
  getNumericalProperty (setPointSize e val) (quoted "thickness")
  = getNumericalProperty e (quoted "thickness").
Proof.
  unfold getNumericalProperty, setPointSize, setLineThickness.
  split; [|split].
  - destruct (m_properties e !! quoted "size") eqn:H.
    + unfold assignProperty. cbn [m_properties]. rewrite lookup_insert_eq. reflexivity.
    + rewrite H. reflexivity.
  - destruct (m_properties e !! quoted "thickness") eqn:H.
    + unfold assignProperty. cbn [m_properties]. rewrite lookup_insert_eq. reflexivity.
    + rewrite H. reflexivity.
  - destruct (m_properties e !! quoted "size") eqn:H; [|reflexivity].
    unfold assignProperty. cbn [m_properties].
    rewrite lookup_insert_ne by (vm_compute; discriminate). reflexivity.
Qed.

Lemma dom_assign_present (e : Expression) (key : string) (v : Expression) :
  is_Some (m_properties e !! key) ->
  dom (m_properties (assignProperty e key v)) = dom (m_properties e).
Proof.
  intros H. unfold assignProperty. cbn [m_properties].
  apply dom_insert_lookup_L, H.
Qed.

(** X7.  The three setters never create a property and never touch the
    head, the tail or the kind: the keys of the expression are the same
    before and after. *)
Theorem setters_keep_keys (atan_1 : float) (e point : Expression) (val rot : float)
    (e' : Expression) :
  setTextPosition atan_1 e point rot = Some e' ->
  dom (m_properties (setPointSize e val)) = dom (m_properties e) /\
  dom (m_properties (setLineThickness e val)) = dom (m_properties e) /\
  dom (m_properties e') = dom (m_properties e) /\
  (m_head e', m_tail e', m_type e') = (m_head e, m_tail e, m_type e) /\
  (m_head (setPointSize e val), m_tail (setPointSize e val), m_type (setPointSize e val))
  = (m_head e, m_tail e, m_type e).
Proof.
  intros Hset.
  split; [|split; [|split; [|split]]].
  - unfold setPointSize. destruct (m_properties e !! quoted "size") eqn:H; [|reflexivity].
    apply dom_assign_present. rewrite H. eauto.
  - unfold setLineThickness.
    destruct (m_properties e !! quoted "thickness") eqn:H; [|reflexivity].
    apply dom_assign_present. rewrite H. eauto.
  - unfold setTextPosition in Hset.
    destruct (m_properties e !! quoted "position") eqn:Hpos.
    + destruct (checkProperty point "object-name" "point"); [|discriminate].
      destruct (m_properties (assignProperty e (quoted "position") point)
                  !! quoted "text-rotation") eqn:Hrot;
        injection Hset as <-.
      * rewrite dom_assign_present by (rewrite Hrot; eauto).
        apply dom_assign_present. rewrite Hpos. eauto.
      * apply dom_assign_present. rewrite Hpos. eauto.
    + destruct (m_properties e !! quoted "text-rotation") eqn:Hrot;
        injection Hset as <-; [|reflexivity].
      apply dom_assign_present. rewrite Hrot. eauto.
  - unfold setTextPosition in Hset.
    destruct (m_properties e !! quoted "position");
      [destruct (checkProperty point "object-name" "point"); [|discriminate]|];
      match type of Hset with
      | context [m_properties ?x !! quoted "text-rotation"] =>
          destruct (m_properties x !! quoted "text-rotation")
      end; injection Hset as Heq; rewrite <- Heq; reflexivity.
  - unfold setPointSize. destruct (m_properties e !! quoted "size"); reflexivity.
Qed.

(** X8.  The scale [getTextProperties] returns is never below 1, and
    without a position the result is the default (0, 0, 1, 0), whatever
    scale and rotation the expression carries. *)
Theorem text_properties_scale_and_defaults (e : Expression) (x y sf rot : float) :
  getTextProperties e = Some (x, y, sf, rot) ->
  PrimFloat.ltb sf 1 = false /\
  (m_properties e !! quoted "position" = None ->
     (x, y, sf, rot) = (0, 0, 1, 0)%float).
Proof.
  unfold getTextProperties. intros H. split.
  - destruct (m_properties e !! quoted "position") as [point|].
    + destruct (m_tail point) as [|cx [|cy more]]; try discriminate.
      injection H as _ _ <- _.
      destruct (m_properties e !! quoted "text-scale") as [v|]; [|reflexivity].
      destruct (PrimFloat.ltb (asNumber (m_head v)) 1) eqn:Hlt; [reflexivity|exact Hlt].
    + injection H as _ _ <- _. reflexivity.
  - intros Hnone. rewrite Hnone in H. injection H as <- <- <- <-. reflexivity.
Qed.

(** ** What evaluation leaves in the environment *)

Section EnvironmentRelation.

Variable global_status_flag : nat -> Z.
Variable to_string : float -> string.
Variable stream_double : float -> string.

#[local] Abbreviation eval := (eval global_status_flag to_string stream_double).
#[local] Abbreviation eval_body := (eval_body global_status_flag to_string stream_double).

(** A relation every step of the evaluator keeps: reflexive, transitive,
    and kept by the one binding [handle_define] makes. *)
Variable R : Environment -> Environment -> Prop.
Hypothesis R_refl : forall env, R env env.
Hypothesis R_trans : forall env1 env2 env3, R env1 env2 -> R env2 env3 -> R env1 env3.
Hypothesis R_define :
  forall env env' sym v,
    R env env' ->
    isSymbol sym = true ->
    ~ In (asSymbol sym) reserved_names ->
    is_proc env sym = false ->
    R env (add_exp env' sym v).

Lemma rs_ret {A} (a : A) : respects R (ret a).
Proof. intros st. apply R_refl. Qed.

Lemma rs_throw {A} (what : string) : respects R (@throw A what).
Proof. intros st. apply R_refl. Qed.

Lemma rs_fault {A} : respects R (@fault A).
Proof. intros st. exact I. Qed.

Lemma rs_get_env : respects R get_env.
Proof. intros st. apply R_refl. Qed.

Lemma rs_poll : respects R (poll global_status_flag).
Proof. intros st. apply R_refl. Qed.

Lemma rs_call_proc (proc : Procedure) (args : list Expression) :
  respects R (call_proc proc args).
Proof. unfold call_proc. destruct (proc args); [apply rs_ret | apply rs_throw]. Qed.

Lemma rs_bind {A B} (m : M A) (k : A -> M B) :
  respects R m -> (forall a, respects R (k a)) -> respects R (bind m k).
Proof.
  intros Hm Hk st. unfold bind. specialize (Hm st).
  destruct (m st) as [a st1|what st1| |]; try exact I; [|exact Hm].
  specialize (Hk a st1). destruct (k a st1); try exact I;
    eapply R_trans; eassumption.
Qed.

Lemma rs_in_scope {A} (inner : Environment) (m : M A) : respects R (in_scope inner m).
Proof.
  intros st. unfold in_scope. destruct (m _); try exact I; apply R_refl.
Qed.

Create HintDb respects discriminated.
#[local] Hint Resolve rs_ret rs_throw rs_fault rs_get_env rs_poll rs_call_proc
  rs_in_scope : respects.

Ltac respects_step :=
  first
    [ solve [auto with respects]
    | apply rs_bind; [|intros ?]
    | match goal with
      | |- respects R (if ?b then _ else _) => destruct b
      | |- respects R (match ?x with _ => _ end) => destruct x
      end ].

Ltac respects := cbv zeta; repeat respects_step.

Section HandlersRespect.

Variable ev : Expression -> M Expression.
Hypothesis ev_respects : forall e, respects R (ev e).

#[local] Hint Resolve ev_respects : respects.

Lemma rs_eval_each (items : list Expression) : respects R (eval_each ev items).
Proof. induction items as [|it rest IH]; cbn [eval_each]; respects. Qed.

Lemma rs_apply (op : Atom) (args : list Expression) : respects R (apply ev op args).
Proof. unfold apply. respects. Qed.

#[local] Hint Resolve rs_eval_each rs_apply : respects.

Lemma rs_begin_loop (items : list Expression) (result : Expression) :
  respects R (begin_loop ev items result).
Proof.
  revert result. induction items as [|it rest IH]; intros result; cbn [begin_loop]; respects.
Qed.

Lemma rs_map_loop (op : Atom) (items acc : list Expression) :
  respects R (map_loop ev op items acc).
Proof.
  revert acc. induction items as [|it rest IH]; intros acc; cbn [map_loop]; respects.
Qed.

Lemma rs_make_point (x y : float) : respects R (make_point ev x y).
Proof. apply rs_apply. Qed.

Lemma rs_make_line (a b : Expression) : respects R (make_line ev a b).
Proof. apply rs_apply. Qed.

#[local] Hint Resolve rs_begin_loop rs_map_loop rs_make_point rs_make_line : respects.

Lemma rs_stem_loop (points : list Expression) (stembottomy : float) :
  respects R (stem_loop ev points stembottomy).
Proof. induction points as [|p rest IH]; cbn [stem_loop]; respects. Qed.

(** The one place where the environment of the caller is written. *)
Lemma rs_handle_define (e : Expression) : respects R (handle_define ev e).
Proof.
  intros st. unfold handle_define.
  destruct (m_tail e) as [|t0 [|t1 [|t2 more]]]; try apply R_refl.
  destruct (isSymbol (m_head t0)) eqn:Hsym; cbn [negb]; [|apply R_refl].
  unfold bind at 1. unfold get_env at 1.
  destruct ((asSymbol (m_head t0) =? "define") || (asSymbol (m_head t0) =? "begin")
            || (asSymbol (m_head t0) =? "lambda") || (asSymbol (m_head t0) =? "list"))
    eqn:Hform; [apply R_refl|].
  destruct (is_proc (st_env st) (m_head t0)) eqn:Hproc; [apply R_refl|].
  destruct ((asSymbol (m_head t0) =? "pi") || (asSymbol (m_head t0) =? "e")
            || (asSymbol (m_head t0) =? "I")) eqn:Hconst; [apply R_refl|].
  unfold bind, get_env, put_env, ret.
  pose proof (ev_respects t1 st) as Hev.
  destruct (ev t1 st) as [v st1|what st1| |]; try exact I; [|exact Hev].
  cbn [st_env]. apply R_define; try assumption.
  repeat (apply orb_false_iff in Hform as [Hform ?]).
  repeat (apply orb_false_iff in Hconst as [Hconst ?]).
  unfold reserved_names. cbn [In].
  repeat match goal with
         | H : (_ =? _) = false |- _ => apply String.eqb_neq in H
         end.
  intuition congruence.
Qed.

#[local] Hint Resolve rs_stem_loop rs_handle_define : respects.

Lemma rs_eval_body (e : Expression) : respects R (eval_body ev e).
Proof.
  unfold eval_body, handle_list, handle_lookup, handle_begin,
    handle_lambda, handle_apply, handle_map, handle_set_property,
    handle_get_property, handle_discrete_plot, handle_cont_plot.
  respects.
Qed.

End HandlersRespect.

Lemma rs_eval (fuel : nat) (e : Expression) : respects R (eval fuel e).
Proof.
  revert e. induction fuel as [|fuel IH]; intros e.
  - intros st. exact I.
  - change (respects R (eval_body (eval fuel) e)). apply rs_eval_body, IH.
Qed.

End EnvironmentRelation.

Lemma same_procs_define (env env' : Environment) (sym : Atom) (v : Expression) :
  same_procs env env' ->
  isSymbol sym = true ->
  ~ In (asSymbol sym) reserved_names ->
  is_proc env sym = false ->
  same_procs env (add_exp env' sym v).
Proof.
  intros Hsame Hsym _ Hproc s p. unfold add_exp.
  destruct (decide (asSymbol sym = s)) as [<-|Hne].
  - rewrite lookup_insert_eq. split; [|discriminate].
    intros Hp. unfold is_proc in Hproc. rewrite Hsym, Hp in Hproc. discriminate.
  - rewrite lookup_insert_ne by exact Hne. apply Hsame.
Qed.

Lemma same_reserved_define (env env' : Environment) (sym : Atom) (v : Expression) :
  same_reserved env env' ->
  isSymbol sym = true ->
  ~ In (asSymbol sym) reserved_names ->
  is_proc env sym = false ->
  same_reserved env (add_exp env' sym v).
Proof.
  intros Hsame _ Hfree _ s Hs. unfold add_exp.
  rewrite lookup_insert_ne by (intros Heq; apply Hfree; rewrite Heq; exact Hs).
  apply Hsame, Hs.
Qed.

Lemma eval_same_procs (global_status_flag : nat -> Z)
    (to_string stream_double : float -> string) (fuel : nat) (e : Expression) :
  respects same_procs (eval global_status_flag to_string stream_double fuel e).
Proof.
  apply rs_eval.
  - intros env s p. reflexivity.
  - intros env1 env2 env3 H12 H23 s p. rewrite (H12 s p). apply H23.
  - apply same_procs_define.
Qed.

(** X9.  Evaluation never changes a built-in procedure: whether [eval]
    returns or throws, a symbol names the built-in [p] afterwards exactly
    when it did before.  A define cannot overwrite one, and what a lambda
    shadows is restored when the call ends. *)
Theorem eval_keeps_builtin_procedures (global_status_flag : nat -> Z)
    (to_string stream_double : float -> string)
    (fuel : nat) (e : Expression) (st : State) :
  match eval global_status_flag to_string stream_double fuel e st with
  | Val _ st' | Throw _ st' =>
      forall (s : string) (p : Procedure),
        st_env st !! s = Some (BuiltinProc p) <-> st_env st' !! s = Some (BuiltinProc p)
  | Fault | NoFuel => True
  end.
Proof. apply eval_same_procs. Qed.

(** X10.  Evaluation never changes what the reserved names define, begin,
    lambda, list, pi, e and I are bound to in the caller's environment. *)
Theorem eval_keeps_reserved_names (global_status_flag : nat -> Z)
    (to_string stream_double : float -> string)
    (fuel : nat) (e : Expression) (st : State) :
  match eval global_status_flag to_string stream_double fuel e st with
  | Val _ st' | Throw _ st' =>
      forall s : string,
        In s ["define"; "begin"; "lambda"; "list"; "pi"; "e"; "I"] ->
        st_env st' !! s = st_env st !! s
  | Fault | NoFuel => True
  end.
Proof.
  apply (rs_eval global_status_flag to_string stream_double same_reserved).
  - intros env s _. reflexivity.
  - intros env1 env2 env3 H12 H23 s Hs. rewrite (H23 s Hs). apply H12, Hs.
  - apply same_reserved_define.
Qed.

(** ** The forms of the evaluator *)

Section FormFacts.

Variable global_status_flag : nat -> Z.
Variable to_string : float -> string.
Variable stream_double : float -> string.

#[local] Abbreviation eval := (eval global_status_flag to_string stream_double).
#[local] Abbreviation eval_body := (eval_body global_status_flag to_string stream_double).
#[local] Abbreviation dispatch := (dispatch to_string stream_double).
#[local] Abbreviation eval_clear := (eval_clear global_status_flag to_string stream_double).
#[local] Abbreviation dispatch_special := (dispatch_special to_string stream_double).

(** X11.  [eval] reads the head and the tail of the node it evaluates and
    nothing else: the kind and the properties of the node do not change the
    outcome. *)
Theorem eval_reads_head_and_tail (fuel : nat) (e : Expression)
    (properties : gmap string Expression) (kind : ExpType.t) (st : State) :
  eval fuel (mkExpression (m_head e) (m_tail e) properties kind) st = eval fuel e st.
Proof. destruct fuel as [|fuel]; reflexivity. Qed.

Lemma eval_each_in_order ev (items : list Expression) (st : State)
    (results : list Expression) (st' : State) :
  evaluates_in_order ev items st results st' ->
  eval_each ev items st = Val results st'.
Proof.
  induction 1 as [st|it rest st r st1 rs st2 Hit _ IH]; [reflexivity|].
  cbn [eval_each]. unfold bind at 1. rewrite Hit.
  unfold bind at 1. rewrite IH. reflexivity.
Qed.

Lemma eval_each_throws ev (pre : list Expression) (c : Expression) (post : list Expression)
    (st : State) (results : list Expression) (st1 : State) (what : string) (st2 : State) :
  evaluates_in_order ev pre st results st1 ->
  ev c st1 = Throw what st2 ->
  eval_each ev (pre ++ c :: post)%list st = Throw what st2.
Proof.
  intros H Hc.
  induction H as [st|it rest st r st1 rs st2' Hit _ IH].
  - cbn. unfold bind. rewrite Hc. reflexivity.
  - cbn [app eval_each]. unfold bind at 1. rewrite Hit.
    unfold bind at 1. rewrite (IH Hc). reflexivity.
Qed.

(** X12.  A list form evaluates its children in order and returns the List
    of their values; without children it returns the empty List.  When a
    child throws, the form throws the same error in the state that child
    left, and the children after it are not evaluated. *)
Theorem eval_list_form (fuel : nat) (e : Expression) (st : State)
    (results : list Expression) (st' : State)
    (bad : Expression) (pre post : list Expression)
    (done : list Expression) (st1 : State) (bad_child : Expression)
    (what : string) (st2 : State) :
  (global_status_flag (st_polls st) <= 0)%Z ->
  asSymbol (m_head e) = "list" ->
  evaluates_in_order (eval fuel) (m_tail e) (tick st) results st' ->
  asSymbol (m_head bad) = "list" ->
  m_tail bad = (pre ++ bad_child :: post)%list ->
  evaluates_in_order (eval fuel) pre (tick st) done st1 ->
  eval fuel bad_child st1 = Throw what st2 ->
  eval (S fuel) e st = Val (Expression_list results) st' /\
  length results = length (m_tail e) /\
  eval (S fuel) (form "list" []) st = Val (Expression_list []) (tick st) /\
  eval (S fuel) bad st = Throw what st2.
Proof.
  intros Hflag Hname Hchildren Hbad Hbtail Hpre Hthrow.
  split; [|split; [|split]].
  - rewrite (eval_clear _ _ _ Hflag). unfold dispatch. rewrite Hname.
    cbn [String.eqb Ascii.eqb Bool.eqb]. unfold handle_list, bind.
    rewrite (eval_each_in_order _ _ _ _ _ Hchildren). reflexivity.
  - eapply evaluates_in_order_length, Hchildren.
  - rewrite (eval_clear _ _ _ Hflag). reflexivity.
  - rewrite (eval_clear _ _ _ Hflag). unfold dispatch. rewrite Hbad.
    cbn [String.eqb Ascii.eqb Bool.eqb]. unfold handle_list, bind.
    rewrite Hbtail, (eval_each_throws _ _ _ _ _ _ _ _ _ Hpre Hthrow). reflexivity.
Qed.

(** X13.  A lambda form with at least two children returns the closure of
    its first two children and evaluates nothing: the state only counts the
    read of the flag, whatever the body is.  The closure has one parameter
    more than the first child has children.  With a single child the form
    reads its tail out of range. *)
Theorem eval_lambda_builds_closure (fuel : nat) (e params body : Expression)
    (more : list Expression) (st : State) (short only : Expression) :
  (global_status_flag (st_polls st) <= 0)%Z ->
  asSymbol (m_head e) = "lambda" ->
  m_tail e = params :: body :: more ->
  asSymbol (m_head short) = "lambda" ->
  m_tail short = [only] ->
  let closure := Expression_lambda (Expression_atom (m_head params) :: m_tail params) body in
  eval (S fuel) e st = Val closure (tick st) /\
  (forall ev, eval_body ev e st = Val closure (tick st)) /\
  isLambda closure = true /\
  (exists template, m_tail closure = [template; body] /\
                    tailLength template = S (tailLength params)) /\
  eval (S fuel) short st = Fault.
Proof.
  intros Hflag Hname Htail Hshort Honly closure.
  assert (Hbody : forall ev, eval_body ev e st = Val closure (tick st)).
  { intros ev. rewrite (eval_body_clear _ _ _ _ _ _ Hflag).
    rewrite (dispatch_special _ _ _ Hname) by (rewrite Htail; discriminate).
    cbn [String.eqb Ascii.eqb Bool.eqb]. unfold handle_lambda. rewrite Htail. reflexivity. }
  split; [apply Hbody|]. split; [exact Hbody|]. split; [reflexivity|].
  split; [eexists; split; reflexivity|].
  rewrite (eval_clear _ _ _ Hflag).
  rewrite (dispatch_special _ _ _ Hshort) by (rewrite Honly; discriminate).
  cbn [String.eqb Ascii.eqb Bool.eqb]. unfold handle_lambda. rewrite Honly. reflexivity.
Qed.

(** X14.  Applying a symbol bound to a closure is decided by the number of
    arguments alone: with as many arguments as parameters the body is
    evaluated in the inner scope, with any other number [apply] throws the
    arity error, leaves the state as it is and does not evaluate the
    body. *)
Theorem apply_closure_checks_arity ev (op : Atom) (args : list Expression) (st : State)
    (params : list Expression) (body : Expression) :
  get_exp (st_env st) op = Expression_lambda params body ->
  apply ev op args st
  = if (length args =? length params)%nat
    then in_scope (shadow_params (st_env st) params args) (ev body) st
    else Throw "Error: during apply: Error in call to procedure: invalid number of arguments."
               st.
Proof.
  intros Hget. unfold apply, bind, get_env. rewrite Hget.
  cbn [isLambda Expression_lambda m_type ExpType.eqb m_tail].
  change (tailLength (Expression_list params)) with (length params).
  destruct (length args =? length params)%nat; reflexivity.
Qed.

(** The heads [eval] treats as special forms. *)
Lemma dispatch_call ev (e : Expression) :
  ~ In (asSymbol (m_head e))
       ["list"; "begin"; "define"; "lambda"; "apply"; "map"; "set-property";
        "get-property"; "discrete-plot"; "continuous-plot"] ->
  m_tail e <> [] ->
  dispatch ev e = (let* results := eval_each ev (m_tail e) in apply ev (m_head e) results).
Proof.
  intros Hname Htail. rewrite (dispatch_special _ _ _ eq_refl Htail).
  cbn [In] in Hname.
  repeat match goal with
         | |- context [String.eqb ?a ?b] =>
             destruct (String.eqb_spec a b) as [Heq|_];
             [exfalso; rewrite Heq in Hname; tauto|]
         end.
  reflexivity.
Qed.

(** X15.  Take a form whose head is not a special form, not bound to a
    lambda and not a built-in procedure.  With at least one child it
    evaluates all its arguments first, and then fails: what the arguments
    did to the environment stays, and the message tells a head that is no
    symbol from a symbol that names no procedure.  Without children it is
    no call at all: the form is a lookup of its head, and returns what the
    head is bound to. *)
Theorem eval_call_of_non_procedure (fuel : nat) (e : Expression) (st : State)
    (results : list Expression) (st1 : State) :
  (global_status_flag (st_polls st) <= 0)%Z ->
  ~ In (asSymbol (m_head e))
       ["list"; "begin"; "define"; "lambda"; "apply"; "map"; "set-property";
        "get-property"; "discrete-plot"; "continuous-plot"] ->
  evaluates_in_order (eval fuel) (m_tail e) (tick st) results st1 ->
  isLambda (get_exp (st_env st1) (m_head e)) = false ->
  is_proc (st_env st1) (m_head e) = false ->
  eval (S fuel) e st
  = match m_tail e with
    | [] => handle_lookup stream_double (m_head e) (tick st)
    | _ :: _ =>
        Throw (if isSymbol (m_head e)
               then "Error during evaluation: symbol does not name a procedure"
               else "Error during evaluation: not a symbol") st1
    end.
Proof.
  intros Hflag Hname Hargs Hlam Hproc.
  rewrite (eval_clear _ _ _ Hflag).
  destruct (m_tail e) as [|c cs] eqn:Htail.
  - apply (f_equal (fun m => m (tick st))).
    apply (dispatch_lookup to_string stream_double); [|exact Htail].
    intros Heq. apply Hname. rewrite Heq. cbn. tauto.
  - rewrite (dispatch_call _ _ Hname) by (rewrite Htail; discriminate).
    rewrite Htail. unfold bind at 1. rewrite (eval_each_in_order _ _ _ _ _ Hargs).
    unfold apply, bind, get_env. rewrite Hlam, Hproc.
    destruct (isSymbol (m_head e)); reflexivity.
Qed.

Lemma builtin_is_proc (env : Environment) (op : Atom) (p : Procedure) :
  isSymbol op = true ->
  env !! asSymbol op = Some (BuiltinProc p) ->
  isLambda (get_exp env op) = false /\ is_proc env op = true /\ get_proc env op = Some p.
Proof.
  intros Hsym Hp. unfold get_exp, is_proc, get_proc. rewrite Hsym, Hp. auto.
Qed.

Lemma apply_of_builtin ev (op : Atom) (p : Procedure) (args : list Expression) (st : State) :
  isSymbol op = true ->
  st_env st !! asSymbol op = Some (BuiltinProc p) ->
  apply ev op args st = call_proc p args st.
Proof.
  intros Hsym Hp. destruct (builtin_is_proc _ _ _ Hsym Hp) as (Hlam & Hproc & Hget).
  unfold apply, bind, get_env. rewrite Hlam, Hsym, Hproc, Hget. reflexivity.
Qed.

Lemma eval_keeps_builtin (fuel : nat) (e : Expression) (st : State)
    (v : Expression) (st' : State) (s : string) (p : Procedure) :
  eval fuel e st = Val v st' ->
  st_env st !! s = Some (BuiltinProc p) ->
  st_env st' !! s = Some (BuiltinProc p).
Proof.
  intros Hrun Hp.
  pose proof (eval_same_procs global_status_flag to_string stream_double fuel e st) as K.
  rewrite Hrun in K. apply K, Hp.
Qed.

(** X16.  An apply form whose first child names a built-in procedure calls
    it on the elements of the List its second child evaluates to; when the
    second child evaluates to anything else the form throws, after that
    evaluation. *)
Theorem eval_apply_of_builtin (fuel : nat) (e t0 t1 : Expression) (st : State)
    (p : Procedure) (arguments : Expression) (st1 : State) :
  (global_status_flag (st_polls st) <= 0)%Z ->
  asSymbol (m_head e) = "apply" ->
  m_tail e = [t0; t1] ->
  isSymbol (m_head t0) = true ->
  m_tail t0 = [] ->
  st_env st !! asSymbol (m_head t0) = Some (BuiltinProc p) ->
  eval fuel t1 (tick st) = Val arguments st1 ->
  eval (S fuel) e st
  = if isList arguments then call_proc p (m_tail arguments) st1
    else Throw "Error: second argument to apply not a list" st1.
Proof.
  intros Hflag Hname Htail Hsym Hleaf Hp Hargs.
  destruct (builtin_is_proc _ _ _ Hsym Hp) as (Hlam & Hproc & _).
  rewrite (eval_clear _ _ _ Hflag).
  rewrite (dispatch_special _ _ _ Hname) by (rewrite Htail; discriminate).
  cbn [String.eqb Ascii.eqb Bool.eqb]. unfold handle_apply. rewrite Htail.
  unfold bind at 1. unfold get_env at 1. cbn [tick st_env].
  rewrite Hlam, Hproc. unfold tailLength. rewrite Hleaf. cbn [negb andb orb length Nat.ltb Nat.leb].
  unfold bind at 1.
  change {| st_env := st_env st; st_polls := S (st_polls st) |} with (tick st).
  rewrite Hargs.
  destruct (isList arguments); cbn [negb]; [|reflexivity].
  apply apply_of_builtin; [exact Hsym|].
  eapply eval_keeps_builtin; [exact Hargs|exact Hp].
Qed.

Lemma map_loop_of_builtin ev (op : Atom) (p : Procedure) (f : Expression -> Expression)
    (items acc : list Expression) (st : State) :
  isSymbol op = true ->
  st_env st !! asSymbol op = Some (BuiltinProc p) ->
  (forall x, In x items -> p [x] = Returns (f x)) ->
  map_loop ev op items acc st = Val (acc ++ List.map f items)%list st.
Proof.
  intros Hsym Hp. revert acc. induction items as [|x items IH]; intros acc Hf.
  - cbn. rewrite app_nil_r. reflexivity.
  - cbn [map_loop]. unfold bind. rewrite (apply_of_builtin _ _ _ _ _ Hsym Hp).
    unfold call_proc. rewrite (Hf x) by (left; reflexivity). cbn [ret].
    rewrite IH by (intros y Hy; apply Hf; right; exact Hy).
    cbn [List.map]. rewrite <- app_assoc. reflexivity.
Qed.

(** X17.  A map form whose first child names a built-in procedure calls it
    once per element, on that element alone, and returns the List of the
    results in the order of the elements; the state is the one the
    evaluation of the second child left.  When the second child does not
    evaluate to a List the form throws the message of the apply form. *)
Theorem eval_map_of_builtin (fuel : nat) (e t0 t1 : Expression) (st : State)
    (p : Procedure) (f : Expression -> Expression)
    (list_evaled : Expression) (st1 : State) :
  (global_status_flag (st_polls st) <= 0)%Z ->
  asSymbol (m_head e) = "map" ->
  m_tail e = [t0; t1] ->
  isSymbol (m_head t0) = true ->
  m_tail t0 = [] ->
  st_env st !! asSymbol (m_head t0) = Some (BuiltinProc p) ->
  eval fuel t1 (tick st) = Val list_evaled st1 ->
  (forall x, In x (m_tail list_evaled) -> p [x] = Returns (f x)) ->
  eval (S fuel) e st
  = if isList list_evaled
    then Val (Expression_list (List.map f (m_tail list_evaled))) st1
    else Throw "Error: second argument to apply not a list" st1.
Proof.
  intros Hflag Hname Htail Hsym Hleaf Hp Hlist Hf.
  destruct (builtin_is_proc _ _ _ Hsym Hp) as (Hlam & Hproc & _).
  rewrite (eval_clear _ _ _ Hflag).
  rewrite (dispatch_special _ _ _ Hname) by (rewrite Htail; discriminate).
  cbn [String.eqb Ascii.eqb Bool.eqb]. unfold handle_map. rewrite Htail.
  unfold bind at 1. unfold get_env at 1. cbn [tick st_env].
  rewrite Hlam, Hproc. unfold tailLength. rewrite Hleaf. cbn [negb andb orb length Nat.ltb Nat.leb].
  unfold bind at 1.
  change {| st_env := st_env st; st_polls := S (st_polls st) |} with (tick st).
  rewrite Hlist.
  destruct (isList list_evaled); cbn [negb]; [|reflexivity].
  unfold bind.
  rewrite (map_loop_of_builtin _ _ p f) by
    first [ exact Hsym | exact Hf | (eapply eval_keeps_builtin; [exact Hlist|exact Hp]) ].
  reflexivity.
Qed.

(** X18.  After a define that is not refused, looking the symbol up gives
    the value the define returned. *)
Theorem define_then_lookup (fuel : nat) (e target value : Expression) (st : State)
    (v : Expression) (st' : State) (probe : Expression) :
  quiet global_status_flag ->
  asSymbol (m_head e) = "define" ->
  m_tail e = [target; value] ->
  isSymbol (m_head target) = true ->
  ~ In (asSymbol (m_head target)) ["define"; "begin"; "lambda"; "list"; "pi"; "e"; "I"] ->
  is_proc (st_env st) (m_head target) = false ->
  eval fuel value (tick st) = Val v st' ->
  m_head probe = m_head target ->
  m_tail probe = [] ->
  let bound := mkState (add_exp (st_env st') (m_head target) v) (st_polls st') in
  eval (S fuel) e st = Val v bound /\
  eval (S fuel) probe bound = Val v (tick bound).
Proof.
  intros Hquiet Hname Htail Hsym Hfree Hproc Hvalue Hhead Hleaf bound.
  split.
  - apply (define_binds global_status_flag to_string stream_double fuel e target value);
      try assumption. apply Hquiet.
  - rewrite (eval_clear _ _ _ (Hquiet _)).
    rewrite (dispatch_lookup to_string stream_double) by
      first [ exact Hleaf | (rewrite Hhead; intros Heq; apply Hfree; rewrite Heq; cbn; tauto) ].
    rewrite handle_lookup_cases. rewrite Hhead, Hsym.
    unfold is_exp, get_exp, bound, add_exp. cbn [tick st_env]. rewrite Hsym.
    rewrite lookup_insert_eq. reflexivity.
Qed.

(** X19.  A define form with a number of children other than two, or whose
    first child is not a symbol, evaluates none of its children, whatever
    [eval] does on them: the state only counts the read of the flag.  With
    one child or with more than two it throws the error of the arity, with
    two and a first child that is no symbol the error of the target.  With
    no child the test of the arity is not reached: the form is a lookup of
    its head. *)
Theorem define_rejects_malformed (fuel : nat) (e : Expression) (st : State) :
  (global_status_flag (st_polls st) <= 0)%Z ->
  asSymbol (m_head e) = "define" ->
  length (m_tail e) <> 2 \/
    (exists t0 t1, m_tail e = [t0; t1] /\ isSymbol (m_head t0) = false) ->
  let outcome :=
    match m_tail e with
    | [] => handle_lookup stream_double (m_head e) (tick st)
    | [_; _] =>
        Throw "Error during handle define: first argument to define not symbol" (tick st)
    | _ =>
        Throw "Error during handle define: invalid number of arguments to define" (tick st)
    end in
  eval (S fuel) e st = outcome /\
  (forall ev, eval_body ev e st = outcome) /\
  match outcome with
  | Val _ st' | Throw _ st' => st' = tick st
  | Fault | NoFuel => False
  end.
Proof.
  intros Hflag Hname Hbad outcome.
  assert (Hbody : forall ev, eval_body ev e st = outcome).
  { intros ev. rewrite (eval_body_clear _ _ _ _ _ _ Hflag). subst outcome.
    destruct (m_tail e) as [|a rest] eqn:Htail.
    - apply (f_equal (fun m => m (tick st))).
      apply (dispatch_lookup to_string stream_double); [|exact Htail].
      rewrite Hname. discriminate.
    - rewrite (dispatch_special _ _ _ Hname) by (rewrite Htail; discriminate).
      cbn [String.eqb Ascii.eqb Bool.eqb]. unfold handle_define. rewrite Htail.
      destruct Hbad as [Hlen|(t0 & t1 & Ht & Hsym)].
      + destruct rest as [|b [|c more]]; cbn in Hlen |- *; try reflexivity; lia.
      + injection Ht as -> ->. rewrite Hsym. reflexivity. }
  split; [apply Hbody|]. split; [exact Hbody|].
  subst outcome. destruct (m_tail e) as [|a [|b [|c more]]]; try reflexivity.
  rewrite handle_lookup_cases.
  destruct (isSymbol (m_head e)); [destruct (is_exp _ _); reflexivity|].
  destruct (isNumber (m_head e) || isComplex (m_head e) || isString (m_head e)); reflexivity.
Qed.

(** X20.  A set-property form with a number of children other than three
    or a first child that is no string evaluates none of its children,
    whatever [eval] does on them: with one, two or more than three children
    it throws the error of the arity, with three and a first child that is
    no string the error of the key, and with no child the test of the arity
    is not reached and the form is a lookup of its head.  A get-property form
    of two children with a first child that is no string throws too, but
    only after it has evaluated its target: the state is the one the target
    left. *)
Theorem property_forms_reject (fuel : nat) (e : Expression) (st : State)
    (g k t : Expression) (rt : Expression) (st1 : State) :
  (global_status_flag (st_polls st) <= 0)%Z ->
  asSymbol (m_head e) = "set-property" ->
  length (m_tail e) <> 3 \/
    (exists t0 t1 t2, m_tail e = [t0; t1; t2] /\ isString (m_head t0) = false) ->
  asSymbol (m_head g) = "get-property" ->
  m_tail g = [k; t] ->
  isString (m_head k) = false ->
  eval fuel t (tick st) = Val rt st1 ->
  let outcome :=
    match m_tail e with
    | [] => handle_lookup stream_double (m_head e) (tick st)
    | [_; _; _] => Throw "Error: first argument to set-property not a string." (tick st)
    | _ => Throw "Error invalid number of arguments for set-property." (tick st)
    end in
  eval (S fuel) e st = outcome /\
  (forall ev, eval_body ev e st = outcome) /\
  eval (S fuel) g st = Throw "Error: first argument to get-property not a string." st1.
Proof.
  intros Hflag Hname Hbad Hgname Hgtail Hk Ht outcome.
  assert (Hbody : forall ev, eval_body ev e st = outcome).
  { intros ev. rewrite (eval_body_clear _ _ _ _ _ _ Hflag). subst outcome.
    destruct (m_tail e) as [|a rest] eqn:Htail.
    - apply (f_equal (fun m => m (tick st))).
      apply (dispatch_lookup to_string stream_double); [|exact Htail].
      rewrite Hname. discriminate.
    - rewrite (dispatch_special _ _ _ Hname) by (rewrite Htail; discriminate).
      cbn [String.eqb Ascii.eqb Bool.eqb]. unfold handle_set_property. rewrite Htail.
      destruct Hbad as [Hlen|(t0 & t1 & t2 & Hts & Hstr)].
      + destruct rest as [|b [|c [|d more]]]; cbn in Hlen |- *; try reflexivity; lia.
      + injection Hts as -> ->. rewrite Hstr. reflexivity. }
  split; [apply Hbody|]. split; [exact Hbody|].
  rewrite (eval_clear _ _ _ Hflag).
  rewrite (dispatch_special _ _ _ Hgname) by (rewrite Hgtail; discriminate).
  cbn [String.eqb Ascii.eqb Bool.eqb]. unfold handle_get_property.
  rewrite Hgtail. unfold bind. rewrite Ht, Hk. reflexivity.
Qed.

(** X21.  set-property works on a copy.  Setting a literal value on a
    symbol bound to [b] returns [b] with the property, and leaves the
    environment as it was: the symbol is still bound to [b], without the
    property. *)
Theorem set_property_copies (fuel : nat) (e k v x : Expression) (st : State)
    (b : Expression) :
  quiet global_status_flag ->
  asSymbol (m_head e) = "set-property" ->
  m_tail e = [k; v; x] ->
  isString (m_head k) = true ->
  isSymbol (m_head x) = true ->
  asSymbol (m_head x) <> "list" ->
  m_tail x = [] ->
  st_env st !! asSymbol (m_head x) = Some (BoundExp b) ->
  isNumber (m_head v) || isString (m_head v) = true ->
  asSymbol (m_head v) <> "list" ->
  m_tail v = [] ->
  let st' := tick (tick (tick st)) in
  eval (S (S fuel)) e st
  = Val (with_property b (asString stream_double (m_head k)) (Expression_atom (m_head v))) st' /\
  st_env st' = st_env st /\
  eval (S fuel) x st' = Val b (tick st').
Proof.
  intros Hquiet Hname Htail Hk Hsym Hxname Hxleaf Hb Hlit Hvname Hvleaf st'.
  assert (Hx : forall n s, st_env s = st_env st -> eval (S n) x s = Val b (tick s)).
  { intros n s Henv. rewrite (eval_clear _ _ _ (Hquiet _)).
    rewrite (dispatch_lookup to_string stream_double) by assumption.
    rewrite handle_lookup_cases, Hsym. unfold is_exp, get_exp.
    cbn [tick st_env]. rewrite Hsym, Henv, Hb. reflexivity. }
  assert (Hv : eval (S fuel) v (tick (tick st)) = Val (Expression_atom (m_head v)) st').
  { rewrite (eval_clear _ _ _ (Hquiet _)).
    rewrite (dispatch_lookup to_string stream_double) by assumption.
    rewrite handle_lookup_cases.
    assert (isSymbol (m_head v) = false) as ->.
    { destruct (m_head v) as [| |s|]; cbn in *; try reflexivity; try discriminate.
      destruct (Ascii.eqb (first_char s) dquote); [reflexivity | discriminate]. }
    assert (isNumber (m_head v) || isComplex (m_head v) || isString (m_head v) = true) as ->.
    { destruct (m_head v); cbn in *; try discriminate; auto. }
    reflexivity. }
  split; [|split].
  - apply (eval_set_property global_status_flag to_string stream_double
             (S fuel) e k v x st b (tick (tick st)));
      try assumption; [apply Hquiet|]. apply Hx. reflexivity.
  - reflexivity.
  - apply Hx. reflexivity.
Qed.

End FormFacts.

(** ** discrete-plot at its edges *)

Section PlotEdges.

Variable global_status_flag : nat -> Z.
Variable to_string : float -> string.
Variable stream_double : float -> string.

#[local] Abbreviation eval := (eval global_status_flag to_string stream_double).

(** X22.  discrete-plot on an empty data list never updates the extrema it
    starts from: the bounding box is drawn between the sentinels 999 and
    -999, the four labels print them, there are no stems and no axes, and
    numpoints is 0. *)
Theorem discrete_plot_of_no_data (fuel : nat)
    (e t0 t1 DATA OPTIONS : Expression) (st st1 st2 : State)
    (point_proc line_proc : Procedure)
    (point : float -> float -> Expression) (line : Expression -> Expression -> Expression)
    (values : list Expression) :
  (global_status_flag (st_polls st) <= 0)%Z ->
  asSymbol (m_head e) = "discrete-plot" ->
  m_tail e = [t0; t1] ->
  eval fuel t0 (tick st) = Val DATA st1 ->
  eval fuel t1 st1 = Val OPTIONS st2 ->
  isList DATA = true ->
  isList OPTIONS = true ->
  m_tail DATA = [] ->
  option_values (m_tail OPTIONS) = Some values ->
  st_env st2 !! "make-point" = Some (BuiltinProc point_proc) ->
  st_env st2 !! "make-line" = Some (BuiltinProc line_proc) ->
  (forall x y, point_proc [number x; number y] = Returns (point x y)) ->
  (forall x1 y1 x2 y2,
     line_proc [point x1 y1; point x2 y2] = Returns (line (point x1 y1) (point x2 y2))) ->
  (forall x1 y1 x2 y2,
     checkProperty (line (point x1 y1) (point x2 y2)) "object-name" "line" = true) ->
  eval (S fuel) e st
  = Val (assignProperty
           (assignProperty
              (Expression_plot "DP"
                 ([line (point 999 (-999)) (point 999 999);
                   line (point (-999) (-999)) (point (-999) 999);
                   line (point 999 (-999)) (point (-999) (-999));
                   line (point 999 999) (point (-999) 999);
                   string_literal (to_string 999);
                   string_literal (to_string (-999));
                   string_literal (to_string 999);
                   string_literal (to_string (-999))]%float ++ values)%list)
              "numpoints" (number 0))
           "numoptions" (number (double_of_size (length (m_tail OPTIONS)))))
        st2.
Proof.
  intros Hflag Hname Htail Hdata Hoptions HisData HisOptions Hempty Hvalues
    Hpoint Hline Hpr Hlr Hcheck.
  destruct st2 as [env polls]. cbn [st_env] in Hpoint, Hline.
  pose proof (fun B => bind_make_point (B:=B) (eval fuel) env point_proc point
                          Hpoint Hpr) as BP.
  pose proof (fun B => bind_make_line (B:=B) (eval fuel) env line_proc
                          point line Hline Hlr) as BL.
  rewrite (eval_clear _ _ _ _ _ _ Hflag).
  rewrite (dispatch_special _ _ _ _ _ Hname) by (rewrite Htail; discriminate).
  cbn [String.eqb Ascii.eqb Bool.eqb].
  unfold handle_discrete_plot. rewrite Htail.
  unfold bind at 1. rewrite Hdata. unfold bind at 1. rewrite Hoptions.
  rewrite HisData, HisOptions. cbn [negb orb]. unfold tailLength. rewrite Hempty.
  cbn [find_extrema stem_loop length]. cbv zeta.
  rewrite !BP, !BL, Hcheck. cbn [negb]. rewrite Hvalues.
  unfold bind at 1. unfold ret at 1.
  change (PrimFloat.ltb 0 (-999) || PrimFloat.ltb 999 0) with false.
  cbv iota. unfold bind, ret.
  rewrite !app_nil_r.
  reflexivity.
Qed.

(** X23.  discrete-plot with a number of children other than two evaluates
    none of them, whatever [eval] does on them: with one child or with more
    than two it throws the error of the arity, with no child the test of the
    arity is not reached and the form is a lookup of its head.  With two
    children it evaluates both, and throws when either value is not a
    List, in the state the two evaluations left. *)
Theorem discrete_plot_rejects (fuel : nat) (e t0 t1 DATA OPTIONS : Expression)
    (st st1 st2 : State) (other : Expression) :
  (global_status_flag (st_polls st) <= 0)%Z ->
  asSymbol (m_head e) = "discrete-plot" ->
  m_tail e = [t0; t1] ->
  eval fuel t0 (tick st) = Val DATA st1 ->
  eval fuel t1 st1 = Val OPTIONS st2 ->
  isList DATA && isList OPTIONS = false ->
  asSymbol (m_head other) = "discrete-plot" ->
  length (m_tail other) <> 2 ->
  let outcome :=
    match m_tail other with
    | [] => handle_lookup stream_double (m_head other) (tick st)
    | _ :: _ => Throw "Error: invalid number of arguments for discrete-plot" (tick st)
    end in
  eval (S fuel) e st = Throw "Error: An argument to discrete-plot is not a list" st2 /\
  eval (S fuel) other st = outcome /\
  (forall ev, eval_body global_status_flag to_string stream_double ev other st = outcome).
Proof.
  intros Hflag Hname Htail Hdata Hoptions Hnot Honame Holen outcome.
  assert (Hbody : forall ev,
            eval_body global_status_flag to_string stream_double ev other st = outcome).
  { intros ev. rewrite (eval_body_clear _ _ _ _ _ _ Hflag). subst outcome.
    destruct (m_tail other) as [|a rest] eqn:Hotail.
    - apply (f_equal (fun m => m (tick st))).
      apply (dispatch_lookup to_string stream_double); [|exact Hotail].
      rewrite Honame. discriminate.
    - rewrite (dispatch_special _ _ _ _ _ Honame) by (rewrite Hotail; discriminate).
      cbn [String.eqb Ascii.eqb Bool.eqb].
      unfold handle_discrete_plot. rewrite Hotail.
      destruct rest as [|b [|c more]]; cbn in Holen |- *; try reflexivity; lia. }
  split; [|split; [apply Hbody | exact Hbody]].
  rewrite (eval_clear _ _ _ _ _ _ Hflag).
  rewrite (dispatch_special _ _ _ _ _ Hname) by (rewrite Htail; discriminate).
  cbn [String.eqb Ascii.eqb Bool.eqb].
  unfold handle_discrete_plot. rewrite Htail.
  unfold bind at 1. rewrite Hdata. unfold bind at 1. rewrite Hoptions.
  destruct (isList DATA), (isList OPTIONS); try discriminate; reflexivity.
Qed.

End PlotEdges.

(** ** The REPL *)

Section ReplFacts.

Variable Interpreter : Type.
Variable parseStream : Interpreter -> string -> bool * Interpreter.
Variable evaluate : Interpreter -> (Expression + string) * Interpreter.

#[local] Abbreviation run_line := (consume_line Interpreter parseStream evaluate).
#[local] Abbreviation run_consumer := (consumer Interpreter parseStream evaluate).
#[local] Abbreviation run_repl := (repl Interpreter parseStream evaluate).

Lemma consume_line_error (interp : Interpreter) (line : string) :
  snd (fst (run_line interp line)) <> EmptyString ->
  fst (fst (run_line interp line)) = Expression_default.
Proof.
  unfold consume_line.
  destruct (parseStream interp line) as [parsed interp1].
  destruct parsed; cbn [negb]; [|reflexivity].
  destruct (evaluate interp1) as [[result|what] interp2]; cbn; [contradiction|reflexivity].
Qed.

Lemma consumer_app (interp : Interpreter) (before rest : list string) :
  Forall (fun line => line <> EmptyString) before ->
  exists outputs interp',
    run_consumer interp before = (outputs, interp', Waiting) /\
    length outputs = length before /\
    Forall (fun o : output_type => snd o <> EmptyString -> fst o = Expression_default)
           outputs /\
    run_consumer interp (before ++ rest)%list
    = (let '(more, interp'', status) := run_consumer interp' rest in
       (outputs ++ more, interp'', status)%list).
Proof.
  intros H. revert interp. induction H as [|line before Hline _ IH]; intros interp.
  - exists [], interp. cbn [consumer app length].
    repeat split; [constructor|].
    destruct (run_consumer interp rest) as [[more interp''] status]. reflexivity.
  - cbn [app consumer].
    destruct (String.eqb_spec line EmptyString) as [Heq|_]; [contradiction|].
    pose proof (consume_line_error interp line) as Herr.
    destruct (run_line interp line) as [output interp1].
    destruct (IH interp1) as (outputs & interp' & Hrun & Hlen & Hall & Happ).
    exists (output :: outputs), interp'.
    rewrite Hrun, Happ. cbn [length].
    repeat split; [congruence|constructor; assumption|].
    destruct (run_consumer interp' rest) as [[more interp''] status]. reflexivity.
Qed.

(** X24.  The consumer pushes one output per line it pops, in order, up to
    the first empty line; there it leaves its loop, and the lines after it
    are never parsed or evaluated.  A line that fails to parse or to
    evaluate does not stop it, and its output carries the message with the
    unset expression. *)
Theorem consumer_stops_at_empty_line (interp : Interpreter) (before after : list string) :
  Forall (fun line => line <> EmptyString) before ->
  exists outputs interp',
    run_consumer interp before = (outputs, interp', Waiting) /\
    run_consumer interp (before ++ EmptyString :: after)%list = (outputs, interp', Stopped) /\
    length outputs = length before /\
    Forall (fun o : output_type => snd o <> EmptyString -> fst o = Expression_default)
           outputs.
Proof.
  intros H.
  destruct (consumer_app interp before (EmptyString :: after) H)
    as (outputs & interp' & Hrun & Hlen & Hall & Happ).
  exists outputs, interp'. repeat split; try assumption.
  rewrite Happ. cbn [consumer String.eqb]. rewrite app_nil_r. reflexivity.
Qed.

(** X25.  The reader skips the empty lines it reads, so it never pushes the
    line that ends the consumer: at the end of the input the consumer is
    still waiting for a line, whatever was read.  Every line that is not
    empty is answered by exactly one printed item. *)
Theorem repl_never_stops_consumer (interp : Interpreter) (lines : list string) :
  exists printed interp',
    run_repl interp lines = (printed, interp', Waiting) /\
    length printed = length (repl_pushed lines) /\
    ~ In EmptyString (repl_pushed lines).
Proof.
  assert (Hpushed : Forall (fun line => line <> EmptyString) (repl_pushed lines)).
  { unfold repl_pushed. apply List.Forall_forall. intros line Hin.
    apply List.filter_In in Hin as [_ Hne].
    intros ->. discriminate. }
  destruct (consumer_app interp (repl_pushed lines) [] Hpushed)
    as (outputs & interp' & Hrun & Hlen & _ & _).
  exists (List.map print_output outputs), interp'.
  unfold repl. rewrite Hrun. rewrite length_map.
  repeat split; [exact Hlen|].
  intros Hin. eapply List.Forall_forall in Hpushed; [|exact Hin]. contradiction.
Qed.

End ReplFacts.

(** ** map and the environment *)

(** X28.  The loop of map never changes the caller's environment: each
    element is handled by [apply], which runs a lambda on a copy, so
    whether the loop returns or throws, the environment after it is the one
    before it, even when the body of the lambda defines symbols. *)
Theorem map_loop_restores_env (ev : Expression -> M Expression) (op : Atom)
    (items acc : list Expression) (st : State) :
  match map_loop ev op items acc st with
  | Val results st' =>
      st_env st' = st_env st /\ length results = (length acc + length items)%nat
  | Throw _ st' => st_env st' = st_env st
  | Fault | NoFuel => True
  end.
Proof.
  revert acc st. induction items as [|x items IH]; intros acc st.
  - cbn. split; [reflexivity | lia].
  - cbn [map_loop]. unfold bind.
    pose proof (apply_restores_env ev op [x] st) as Happly.
    destruct (apply ev op [x] st) as [v st1|what st1| |]; try exact I; [|exact Happly].
    specialize (IH (acc ++ [v])%list st1).
    destruct (map_loop ev op items (acc ++ [v])%list st1) as [results st2|what st2| |];
      try exact I.
    + destruct IH as [Henv Hlen]. split; [congruence|].
      rewrite Hlen, length_app. cbn. lia.
    + congruence.
Qed.

(** * Sample runs of the further properties *)

Lemma Atom_eq_same_type_witness :
  isSymbol (SymbolKind "x") = isSymbol (SymbolKind "x") /\
  forall s, SymbolKind "x" = SymbolKind s -> SymbolKind "x" = SymbolKind s.
Proof.
  destruct (Atom_eq_same_type (SymbolKind "x") (SymbolKind "x")) as (_ & _ & _ & H & _ & K).
  - vm_compute. reflexivity.
  - split; [exact H | exact K].
Defined.

Lemma setters_keep_keys_witness :
  exists e',
    setTextPosition 0x1.921fb54442d18p-1 sample_text (point_of 1 2) 90 = Some e' /\
    dom (m_properties e') = dom (m_properties sample_text).
Proof.
  eexists. split; [vm_compute; reflexivity|].
  refine (proj1 (proj2 (proj2
            (setters_keep_keys 0x1.921fb54442d18p-1 sample_text (point_of 1 2) 3 90 _ _)))).
  vm_compute. reflexivity.
Defined.

Lemma text_properties_scale_and_defaults_witness :
  getTextProperties sample_text = Some (0, 0, 1, 0)%float /\
  PrimFloat.ltb 1 1 = false.
Proof.
  split; [vm_compute; reflexivity|].
  refine (proj1 (text_properties_scale_and_defaults sample_text 0 0 1 0 _)).
  vm_compute. reflexivity.
Defined.

Lemma eval_list_form_witness :
  eval flag_clear no_digits no_digits 2 list_1_2 (mkState plot_env 0)
  = Val (Expression_list [number 1; number 2]) (mkState plot_env 3) /\
  eval flag_clear no_digits no_digits 2
    (form "list" [number 1; symbol "b"; number 3]) (mkState plot_env 0)
  = Throw "Error during handle lookup: unknown symbol b" (mkState plot_env 3).
Proof.
  destruct (eval_list_form flag_clear no_digits no_digits 1 list_1_2 (mkState plot_env 0)
              [number 1; number 2] (mkState plot_env 3)
              (form "list" [number 1; symbol "b"; number 3]) [number 1] [number 3]
              [number 1] (mkState plot_env 2) (symbol "b")
              "Error during handle lookup: unknown symbol b" (mkState plot_env 3))
    as (Hlist & _ & _ & Hbad).
  - apply flag_clear_quiet.
  - reflexivity.
  - eapply in_order_cons; [vm_compute; reflexivity|].
    eapply in_order_cons; [vm_compute; reflexivity|]. constructor.
  - reflexivity.
  - reflexivity.
  - eapply in_order_cons; [vm_compute; reflexivity|]. constructor.
  - vm_compute. reflexivity.
  - split; assumption.
Defined.

Lemma eval_lambda_builds_closure_witness :
  eval flag_clear no_digits no_digits 1 (form "lambda" [symbol "x"; symbol "x"])
    (mkState plot_env 0)
  = Val (Expression_lambda [symbol "x"] (symbol "x")) (mkState plot_env 1) /\
  eval flag_clear no_digits no_digits 1 (form "lambda" [symbol "x"]) (mkState plot_env 0)
  = Fault.
Proof.
  destruct (eval_lambda_builds_closure flag_clear no_digits no_digits 0
              (form "lambda" [symbol "x"; symbol "x"]) (symbol "x") (symbol "x") []
              (mkState plot_env 0) (form "lambda" [symbol "x"]) (symbol "x"))
    as (Hclosure & _ & _ & _ & Hshort);
    try reflexivity; try apply flag_clear_quiet.
  split; assumption.
Defined.

Lemma apply_closure_checks_arity_witness :
  apply (eval flag_clear no_digits no_digits 1) (SymbolKind "f") [number 1; number 2]
    (mkState scoping_env 0)
  = Throw "Error: during apply: Error in call to procedure: invalid number of arguments."
          (mkState scoping_env 0).
Proof.
  apply (apply_closure_checks_arity (eval flag_clear no_digits no_digits 1)
           (SymbolKind "f") [number 1; number 2] (mkState scoping_env 0)
           [symbol "x"] (symbol "x")).
  vm_compute. reflexivity.
Defined.

(** (foo 1) with foo unbound, and (foo) with foo bound to 3. *)
Lemma eval_call_of_non_procedure_witness :
  eval flag_clear no_digits no_digits 2 (form "foo" [number 1]) (mkState plot_env 0)
  = Throw "Error during evaluation: symbol does not name a procedure" (mkState plot_env 2) /\
  eval flag_clear no_digits no_digits 2 (form "foo" [])
    (mkState (<["foo" := BoundExp (number 3)]> plot_env) 0)
  = Val (number 3) (mkState (<["foo" := BoundExp (number 3)]> plot_env) 1).
Proof.
  split.
  - apply (eval_call_of_non_procedure flag_clear no_digits no_digits 1
             (form "foo" [number 1]) (mkState plot_env 0) [number 1] (mkState plot_env 2)).
    + apply flag_clear_quiet.
    + cbn. intuition discriminate.
    + eapply in_order_cons; [vm_compute; reflexivity|]. constructor.
    + vm_compute. reflexivity.
    + vm_compute. reflexivity.
  - etransitivity.
    { apply (eval_call_of_non_procedure flag_clear no_digits no_digits 1
               (form "foo" []) (mkState (<["foo" := BoundExp (number 3)]> plot_env) 0)
               [] (mkState (<["foo" := BoundExp (number 3)]> plot_env) 1)).
      + apply flag_clear_quiet.
      + cbn. intuition discriminate.
      + constructor.
      + vm_compute. reflexivity.
      + vm_compute. reflexivity. }
    vm_compute. reflexivity.
Defined.

Lemma eval_apply_of_builtin_witness :
  eval flag_clear no_digits no_digits 3 (form "apply" [symbol "list"; list_1_2])
    (mkState builtin_env 0)
  = Val (Expression_list [number 1; number 2]) (mkState builtin_env 4).
Proof.
  apply (eval_apply_of_builtin flag_clear no_digits no_digits 2
           (form "apply" [symbol "list"; list_1_2]) (symbol "list") list_1_2
           (mkState builtin_env 0) list_proc
           (Expression_list [number 1; number 2]) (mkState builtin_env 4));
    try reflexivity; try apply flag_clear_quiet; try (vm_compute; reflexivity).
Defined.

Lemma eval_map_of_builtin_witness :
  eval flag_clear no_digits no_digits 3 (form "map" [symbol "list"; list_1_2])
    (mkState builtin_env 0)
  = Val (Expression_list [Expression_list [number 1]; Expression_list [number 2]])
        (mkState builtin_env 4).
Proof.
  apply (eval_map_of_builtin flag_clear no_digits no_digits 2
           (form "map" [symbol "list"; list_1_2]) (symbol "list") list_1_2
           (mkState builtin_env 0) list_proc (fun x => Expression_list [x])
           (Expression_list [number 1; number 2]) (mkState builtin_env 4));
    try reflexivity; try apply flag_clear_quiet; try (vm_compute; reflexivity).
Defined.

Lemma define_then_lookup_witness :
  eval flag_clear no_digits no_digits 2 (form "define" [symbol "a"; number 3])
    (mkState plot_env 0)
  = Val (number 3) (mkState (<["a" := BoundExp (number 3)]> plot_env) 2) /\
  eval flag_clear no_digits no_digits 2 (symbol "a")
    (mkState (<["a" := BoundExp (number 3)]> plot_env) 2)
  = Val (number 3) (mkState (<["a" := BoundExp (number 3)]> plot_env) 3).
Proof.
  apply (define_then_lookup flag_clear no_digits no_digits 1
           (form "define" [symbol "a"; number 3]) (symbol "a") (number 3)
           (mkState plot_env 0) (number 3) (mkState plot_env 2) (symbol "a"));
    try reflexivity.
  - exact flag_clear_quiet.
  - cbn. intuition discriminate.
Defined.

(** (define 1 2), and (define) in the scope in which the body of
    (lambda (define) (define)) runs when it is applied to 5. *)
Lemma define_rejects_malformed_witness :
  eval flag_clear no_digits no_digits 1 (form "define" [number 1; number 2])
    (mkState plot_env 0)
  = Throw "Error during handle define: first argument to define not symbol"
          (mkState plot_env 1) /\
  eval flag_clear no_digits no_digits 1 (form "define" [])
    (mkState (shadowing_helper plot_env (SymbolKind "define") (number 5)) 0)
  = Val (number 5) (mkState (shadowing_helper plot_env (SymbolKind "define") (number 5)) 1).
Proof.
  split.
  - refine (proj1 (define_rejects_malformed flag_clear no_digits no_digits 0
                     (form "define" [number 1; number 2]) (mkState plot_env 0) _ _ _)).
    + apply flag_clear_quiet.
    + reflexivity.
    + right. exists (number 1), (number 2). split; reflexivity.
  - etransitivity.
    { refine (proj1 (define_rejects_malformed flag_clear no_digits no_digits 0
                       (form "define" [])
                       (mkState (shadowing_helper plot_env (SymbolKind "define") (number 5)) 0)
                       _ _ _)).
      + apply flag_clear_quiet.
      + reflexivity.
      + left. cbn. lia. }
    vm_compute. reflexivity.
Defined.

(** (set-property key 42 (list 1 2)) and (get-property key (list 1 2)) with
    a key that is no string, and (set-property) after (define set-property 3). *)
Lemma property_forms_reject_witness :
  eval flag_clear no_digits no_digits 3
    (form "set-property" [symbol "key"; number 42; list_1_2]) (mkState plot_env 0)
  = Throw "Error: first argument to set-property not a string." (mkState plot_env 1) /\
  eval flag_clear no_digits no_digits 3
    (form "get-property" [symbol "key"; list_1_2]) (mkState plot_env 0)
  = Throw "Error: first argument to get-property not a string." (mkState plot_env 4) /\
  eval flag_clear no_digits no_digits 3 (form "set-property" [])
    (mkState (<["set-property" := BoundExp (number 3)]> plot_env) 0)
  = Val (number 3) (mkState (<["set-property" := BoundExp (number 3)]> plot_env) 1).
Proof.
  assert (Hthrows :=
    property_forms_reject flag_clear no_digits no_digits 2
      (form "set-property" [symbol "key"; number 42; list_1_2]) (mkState plot_env 0)
      (form "get-property" [symbol "key"; list_1_2]) (symbol "key") list_1_2
      (Expression_list [number 1; number 2]) (mkState plot_env 4)
      (flag_clear_quiet 0) eq_refl
      (or_intror (ex_intro _ (symbol "key") (ex_intro _ (number 42)
         (ex_intro _ list_1_2 (conj eq_refl eq_refl)))))
      eq_refl eq_refl eq_refl eq_refl).
  assert (Hlookup :=
    property_forms_reject flag_clear no_digits no_digits 2
      (form "set-property" [])
      (mkState (<["set-property" := BoundExp (number 3)]> plot_env) 0)
      (form "get-property" [symbol "key"; list_1_2]) (symbol "key") list_1_2
      (Expression_list [number 1; number 2])
      (mkState (<["set-property" := BoundExp (number 3)]> plot_env) 4)
      (flag_clear_quiet 0) eq_refl
      (or_introl (fun H : 0 = 3 => O_S 2 H))
      eq_refl eq_refl eq_refl eq_refl).
  cbv zeta in Hthrows, Hlookup.
  destruct Hthrows as (Hset & _ & Hget), Hlookup as (Hbare & _).
  split; [exact Hset|]. split; [exact Hget|].
  etransitivity; [exact Hbare|]. vm_compute. reflexivity.
Defined.

Lemma set_property_copies_witness :
  eval flag_clear no_digits no_digits 2
    (form "set-property" [string_literal "k"; number 42; symbol "x"])
    (mkState scoping_env 0)
  = Val (with_property (number 1) (quoted "k") (number 42)) (mkState scoping_env 3) /\
  eval flag_clear no_digits no_digits 1 (symbol "x") (mkState scoping_env 3)
  = Val (number 1) (mkState scoping_env 4).
Proof.
  destruct (set_property_copies flag_clear no_digits no_digits 0
              (form "set-property" [string_literal "k"; number 42; symbol "x"])
              (string_literal "k") (number 42) (symbol "x") (mkState scoping_env 0)
              (number 1))
    as (Hset & _ & Hlookup);
    try reflexivity; try exact flag_clear_quiet; try (cbn; discriminate).
  split; assumption.
Defined.

Lemma discrete_plot_of_no_data_witness :
  exists plot,
    eval flag_clear no_digits no_digits 2
      (form "discrete-plot" [form "list" []; form "list" []]) (mkState plot_env 0)
    = Val plot (mkState plot_env 3) /\
    length (m_tail plot) = 8 /\
    m_properties plot !! "numpoints" = Some (number 0).
Proof.
  eexists. split.
  - apply (discrete_plot_of_no_data flag_clear no_digits no_digits 1
             (form "discrete-plot" [form "list" []; form "list" []])
             (form "list" []) (form "list" [])
             (Expression_list []) (Expression_list [])
             (mkState plot_env 0) (mkState plot_env 2) (mkState plot_env 3)
             make_point_proc make_line_proc point_of line_of []);
      try reflexivity;
      first [ apply flag_clear_quiet | exact plot_env_points | exact plot_env_lines
            | exact plot_env_lines_tagged ].
  - split; [reflexivity | vm_compute; reflexivity].
Defined.

(** (discrete-plot 1 (list)) and (discrete-plot 1) in [plot_env], and
    (discrete-plot) after (define discrete-plot 3). *)
Lemma discrete_plot_rejects_witness :
  eval flag_clear no_digits no_digits 2
    (form "discrete-plot" [number 1; form "list" []]) (mkState plot_env 0)
  = Throw "Error: An argument to discrete-plot is not a list" (mkState plot_env 3) /\
  eval flag_clear no_digits no_digits 2
    (form "discrete-plot" [number 1]) (mkState plot_env 0)
  = Throw "Error: invalid number of arguments for discrete-plot" (mkState plot_env 1) /\
  eval flag_clear no_digits no_digits 2 (form "discrete-plot" [])
    (mkState (<["discrete-plot" := BoundExp (number 3)]> plot_env) 0)
  = Val (number 3) (mkState (<["discrete-plot" := BoundExp (number 3)]> plot_env) 1).
Proof.
  assert (Hthrows :=
    discrete_plot_rejects flag_clear no_digits no_digits 1
      (form "discrete-plot" [number 1; form "list" []])
      (number 1) (form "list" [])
      (number 1) (Expression_list [])
      (mkState plot_env 0) (mkState plot_env 2) (mkState plot_env 3)
      (form "discrete-plot" [number 1])
      (flag_clear_quiet 0) eq_refl eq_refl eq_refl eq_refl eq_refl eq_refl
      (fun H : 1 = 2 => O_S 0 (eq_add_S _ _ H))).
  assert (Hlookup :=
    discrete_plot_rejects flag_clear no_digits no_digits 1
      (form "discrete-plot" [number 1; form "list" []])
      (number 1) (form "list" [])
      (number 1) (Expression_list [])
      (mkState (<["discrete-plot" := BoundExp (number 3)]> plot_env) 0)
      (mkState (<["discrete-plot" := BoundExp (number 3)]> plot_env) 2)
      (mkState (<["discrete-plot" := BoundExp (number 3)]> plot_env) 3)
      (form "discrete-plot" [])
      (flag_clear_quiet 0) eq_refl eq_refl eq_refl eq_refl eq_refl eq_refl
      (fun H : 0 = 2 => O_S 1 H)).
  cbv zeta in Hthrows, Hlookup.
  destruct Hthrows as (Hlists & Harity & _), Hlookup as (_ & Hbare & _).
  split; [exact Hlists|]. split; [exact Harity|].
  etransitivity; [exact Hbare|]. vm_compute. reflexivity.
Defined.

Lemma consumer_stops_at_empty_line_witness :
  consumer nat sample_parse sample_evaluate 0 ["a"; "?"; EmptyString; "b"]
  = ([(Expression_default, EmptyString);
      (Expression_default, "Invalid Expression. Could not parse.")], 2, Stopped).
Proof.
  destruct (consumer_stops_at_empty_line nat sample_parse sample_evaluate 0
              ["a"; "?"] ["b"])
    as (outputs & interp' & Hrun & Hstop & _ & _).
  - repeat constructor; discriminate.
  - vm_compute in Hrun. injection Hrun as <- <-. exact Hstop.
Defined.

Lemma eval_empty_tail_witness :
  eval flag_clear no_digits no_digits 1 (number 1) (mkState plot_env 0)
  = Val (number 1) (mkState plot_env 1).
Proof.
  refine (proj1 (eval_empty_tail flag_clear no_digits no_digits 0 (number 1)
                   (mkState plot_env 0) _ _ _) _).
  - apply flag_clear_quiet.
  - reflexivity.
  - cbn. discriminate.
  - reflexivity.
Defined.

Lemma define_refuses_witness :
  exists what,
    eval flag_clear no_digits no_digits 1 (form "define" [symbol "pi"; number 3])
      (mkState plot_env 0)
    = Throw what (mkState plot_env 1).
Proof.
  apply (define_refuses flag_clear no_digits no_digits 0
           (form "define" [symbol "pi"; number 3]) (symbol "pi") (number 3)
           (mkState plot_env 0)).
  - apply flag_clear_quiet.
  - reflexivity.
  - reflexivity.
  - reflexivity.
  - left. cbn. tauto.
Defined.
